(** * SDP: node discovery, classification and sampling

    A shallow embedding of [sdp.py] (class [SDP]) and the properties of its
    sampling loop, node classification, tolerance matching and ranking.

    Conventions of the embedding.
    - Python floats (numpy scalars, coordinates, tolerances, probabilities)
      are real numbers [R]; Python ints ([trials], occurrence counts, the
      two direction counters, the argument [n] of [solve]) are [Z].
    - A point [[x, y, z]] is a triple of reals.  A numpy matrix is a list of
      rows.
    - A method of the object is a computation in the monad [M]: it takes the
      machine state and returns either a value or a raised exception,
      together with the state at that moment.  Python mutates [self] in
      place, so the mutations done before an exception is raised stay.
    - Whatever comes from outside the class is an explicit argument: the
      answers of the cvx solver in one trial ([Trial]), what one run of the
      Singular handler meets ([SingularEnv]) and [scipy.linalg.svd]. *)

From Stdlib Require Import List ZArith Reals Lra Lia String Ascii Bool.
From Stdlib Require Import DecimalString.
From Stdlib Require Import Sorted Permutation.
Import ListNotations.

(** ** Exceptions and the two monads *)

Inductive exn : Type :=
| NameError (name : string)
| IndexError
| ValueError
| ZeroDivisionError
| CalledProcessError
| IOError.

Inductive result (A : Type) : Type :=
| Ok (a : A)
| Err (e : exn).

Arguments Ok {A} a.
Arguments Err {A} e.

Class Monad (m : Type -> Type) : Type := {
  ret : forall {A : Type}, A -> m A;
  bind : forall {A B : Type}, m A -> (A -> m B) -> m B
}.

Declare Scope monad_scope.
Delimit Scope monad_scope with monad.
Notation "x <- c1 ;; c2" := (bind c1 (fun x => c2))
  (at level 61, c1 at next level, right associativity) : monad_scope.
Notation "c1 ;; c2" := (bind c1 (fun _ => c2))
  (at level 61, right associativity) : monad_scope.
Open Scope monad_scope.

#[export] Instance Monad_result : Monad result := {
  ret := fun A a => Ok a;
  bind := fun A B r k => match r with Ok a => k a | Err e => Err e end
}.

(** ** Real-number tests as booleans *)

Definition Rleb (x y : R) : bool := if Rle_dec x y then true else false.
Definition Rltb (x y : R) : bool := if Rlt_dec x y then true else false.

Arguments Rleb : simpl never.
Arguments Rltb : simpl never.

(** ** Data model *)

Definition Point : Type := (R * R * R)%type.
Definition Matrix : Type := list (list R).

(** An element [[vector, e]] of [spec_nodes] or [sym_nodes]. *)
Definition SingularNode : Type := (Point * list R)%type.

(** An element [[node[0], occurrences, node[1]]] of [pmins]. *)
Record PMin : Type := mkPMin {
  pm_point : Point;
  pm_count : Z;
  pm_eigs : list R
}.

(** An element [[point, probability, eigenvalues]] of [nodes]. *)
Definition RankedNode : Type := (Point * R * list R)%type.

Definition rn_point (nd : RankedNode) : Point := fst (fst nd).
Definition rn_prob (nd : RankedNode) : R := snd (fst nd).
Definition rn_eigs (nd : RankedNode) : list R := snd nd.

(** The instance fields set by [__init__] and mutated afterwards. *)
Record SDP : Type := mkSDP {
  mins : list Point;
  pmins : list PMin;
  nodes : list RankedNode;
  spec_nodes : list SingularNode;
  sym_nodes : list SingularNode;
  trials : Z;
  psd_spec : bool;
  nsd_spec : bool;
  fully_bounded_directions : Z;
  fully_unbounded_directions : Z
}.

(** The two semidefinite components a sub-problem is posed on. *)
Inductive Component : Type := PSD | NSD.

(** What lies outside the object: the files on disk and the trace of the
    calls made to the cvx solver, most recent first. *)
Record World : Type := mkWorld {
  files : list string;
  cvx_calls : list Component
}.

Record Machine : Type := mkMachine {
  self : SDP;
  world : World
}.

Definition M (A : Type) : Type := Machine -> result A * Machine.

#[export] Instance Monad_M : Monad M := {
  ret := fun A a s => (Ok a, s);
  bind := fun A B c k s =>
    match c s with
    | (Ok a, s') => k a s'
    | (Err e, s') => (Err e, s')
    end
}.

Definition raise {A : Type} (e : exn) : M A := fun s => (Err e, s).
Definition lift {A : Type} (r : result A) : M A := fun s => (r, s).
Definition gets {A : Type} (f : SDP -> A) : M A := fun s => (Ok (f (self s)), s).
Definition modify (f : SDP -> SDP) : M unit :=
  fun s => (Ok tt, mkMachine (f (self s)) (world s)).
Definition modify_world (f : World -> World) : M unit :=
  fun s => (Ok tt, mkMachine (self s) (f (world s))).

Fixpoint for_each {A : Type} (l : list A) (body : A -> M unit) : M unit :=
  match l with
  | [] => ret tt
  | a :: l' => body a ;; for_each l' body
  end.

(** Field updates. *)
Definition set_mins (v : list Point) (o : SDP) : SDP :=
  mkSDP v (pmins o) (nodes o) (spec_nodes o) (sym_nodes o) (trials o)
        (psd_spec o) (nsd_spec o) (fully_bounded_directions o)
        (fully_unbounded_directions o).
Definition set_pmins (v : list PMin) (o : SDP) : SDP :=
  mkSDP (mins o) v (nodes o) (spec_nodes o) (sym_nodes o) (trials o)
        (psd_spec o) (nsd_spec o) (fully_bounded_directions o)
        (fully_unbounded_directions o).
Definition set_nodes (v : list RankedNode) (o : SDP) : SDP :=
  mkSDP (mins o) (pmins o) v (spec_nodes o) (sym_nodes o) (trials o)
        (psd_spec o) (nsd_spec o) (fully_bounded_directions o)
        (fully_unbounded_directions o).
Definition set_spec_nodes (v : list SingularNode) (o : SDP) : SDP :=
  mkSDP (mins o) (pmins o) (nodes o) v (sym_nodes o) (trials o)
        (psd_spec o) (nsd_spec o) (fully_bounded_directions o)
        (fully_unbounded_directions o).
Definition set_sym_nodes (v : list SingularNode) (o : SDP) : SDP :=
  mkSDP (mins o) (pmins o) (nodes o) (spec_nodes o) v (trials o)
        (psd_spec o) (nsd_spec o) (fully_bounded_directions o)
        (fully_unbounded_directions o).
Definition set_trials (v : Z) (o : SDP) : SDP :=
  mkSDP (mins o) (pmins o) (nodes o) (spec_nodes o) (sym_nodes o) v
        (psd_spec o) (nsd_spec o) (fully_bounded_directions o)
        (fully_unbounded_directions o).
Definition set_psd_spec (v : bool) (o : SDP) : SDP :=
  mkSDP (mins o) (pmins o) (nodes o) (spec_nodes o) (sym_nodes o) (trials o)
        v (nsd_spec o) (fully_bounded_directions o)
        (fully_unbounded_directions o).
Definition set_nsd_spec (v : bool) (o : SDP) : SDP :=
  mkSDP (mins o) (pmins o) (nodes o) (spec_nodes o) (sym_nodes o) (trials o)
        (psd_spec o) v (fully_bounded_directions o)
        (fully_unbounded_directions o).
Definition set_fully_bounded_directions (v : Z) (o : SDP) : SDP :=
  mkSDP (mins o) (pmins o) (nodes o) (spec_nodes o) (sym_nodes o) (trials o)
        (psd_spec o) (nsd_spec o) v (fully_unbounded_directions o).
Definition set_fully_unbounded_directions (v : Z) (o : SDP) : SDP :=
  mkSDP (mins o) (pmins o) (nodes o) (spec_nodes o) (sym_nodes o) (trials o)
        (psd_spec o) (nsd_spec o) (fully_bounded_directions o) v.

(** [SDP.__init__]: the fields other than the four matrices. *)
Definition init : SDP :=
  mkSDP [] [] [] [] [] 0%Z true true 0%Z 0%Z.

Definition init_machine : Machine := mkMachine init (mkWorld [] []).

(** ** [solve] *)

(** The statuses [cvx.get_status] can report; [UNKNOWN] stands for any
    status other than the three the code tests for. *)
Inductive Status : Type := SOLVED | INFEASIBLE | UNBOUNDED | UNKNOWN.

Definition status_eqb (a b : Status) : bool :=
  match a, b with
  | SOLVED, SOLVED | INFEASIBLE, INFEASIBLE
  | UNBOUNDED, UNBOUNDED | UNKNOWN, UNKNOWN => true
  | _, _ => false
  end.

(** The answer of one call to the solver: the status, and the values of the
    variables [x], [y], [z] after the call. *)
Record Answer : Type := mkAnswer {
  status : Status;
  value : Point
}.

(** What the solver would answer in one iteration of the loop, for the
    objective drawn in that iteration. *)
Record Trial : Type := mkTrial {
  psd_answer : Answer;
  nsd_answer : Answer
}.

(** [cvx.Problem(obj, ...).solve(...)]: the call is recorded in the trace. *)
Definition cvx_solve (c : Component) (a : Answer) : M Status :=
  modify_world (fun w => mkWorld (files w) (c :: cvx_calls w)) ;;
  ret (status a).

(** Reading a local variable of the running call: unbound is [None]. *)
Definition read_local {A : Type} (name : string) (v : option A) : M A :=
  match v with
  | Some a => ret a
  | None => raise (NameError name)
  end.

Definition mins_append (p : Point) : M unit :=
  modify (fun o => set_mins (mins o ++ [p]) o).

(** Lines 156-163, "check psd component".  The local [psd_status] is passed
    in and handed back: it keeps its value from one iteration to the next. *)
Definition psd_block (t : Trial) (psd_status : option Status)
  : M (option Status) :=
  spec <- gets psd_spec ;;
  if spec then
    st <- cvx_solve PSD (psd_answer t) ;;
    (if status_eqb st SOLVED then mins_append (value (psd_answer t))
     else if status_eqb st INFEASIBLE then modify (set_psd_spec false)
     else ret tt) ;;
    ret (Some st)
  else ret psd_status.

(** Lines 166-178, "check NSD component". *)
Definition nsd_block (t : Trial) (psd_status : option Status) : M unit :=
  spec <- gets nsd_spec ;;
  if spec then
    nsd_status <- cvx_solve NSD (nsd_answer t) ;;
    if status_eqb nsd_status SOLVED then
      mins_append (value (nsd_answer t)) ;;
      ps <- read_local "psd_status" psd_status ;;
      if status_eqb ps SOLVED then
        modify (fun o => set_fully_bounded_directions
                           (fully_bounded_directions o + 1) o)
      else ret tt
    else
      both <- (if status_eqb nsd_status UNBOUNDED then
                 ps <- read_local "psd_status" psd_status ;;
                 ret (status_eqb ps UNBOUNDED)
               else ret false) ;;
      if both then
        modify (fun o => set_fully_unbounded_directions
                           (fully_unbounded_directions o + 1) o)
      else if status_eqb nsd_status INFEASIBLE then
        modify (set_nsd_spec false)
      else ret tt
  else ret tt.

(** The body of the [for] loop. *)
Definition solve_trial (t : Trial) (psd_status : option Status)
  : M (option Status) :=
  ps <- psd_block t psd_status ;;
  nsd_block t ps ;;
  ret ps.

Fixpoint solve_loop (ts : list Trial) (psd_status : option Status)
  : M (option Status) :=
  match ts with
  | [] => ret psd_status
  | t :: ts' => ps <- solve_trial t psd_status ;; solve_loop ts' ps
  end.

(** [solve(n)]: [oracle i] is what the solver answers in iteration [i].
    [range(n)] is empty for [n <= 0]; [psd_status] starts unbound. *)
Definition solve (n : Z) (oracle : nat -> Trial) : M unit :=
  solve_loop (map oracle (seq 0 (Z.to_nat n))) None ;;
  modify (fun o => set_trials (trials o + n) o).

(** ** The pencil, [matrix] and [eigenvalues] *)

Definition index {A : Type} (l : list A) (i : nat) : result A :=
  match nth_error l i with
  | Some a => Ok a
  | None => Err IndexError
  end.

(** [l[i] = v] on a list; the index is in range wherever it is used. *)
Fixpoint update {A : Type} (l : list A) (i : nat) (v : A) : list A :=
  match l, i with
  | [], _ => []
  | _ :: l', O => v :: l'
  | a :: l', S i' => a :: update l' i' v
  end.

(** [m[i, j]] on a numpy matrix. *)
Definition entry (m : Matrix) (i j : nat) : result R :=
  row <- index m i ;; index row j.

Fixpoint zip_with {A B C : Type} (f : A -> B -> C) (l : list A) (l' : list B)
  : list C :=
  match l, l' with
  | a :: t, b :: t' => f a b :: zip_with f t t'
  | _, _ => []
  end.

Definition mscale (c : R) (m : Matrix) : Matrix := map (map (Rmult c)) m.

(** The shape of a matrix: its rows, and the columns of its first row.  A
    matrix without rows is taken to have no columns. *)
Definition shape (m : Matrix) : nat * nat :=
  (List.length m,
   match m with
   | [] => O
   | row :: _ => List.length row
   end).

(** numpy's rule for one axis of two operands: the lengths are equal, or one
    of them is 1 and that operand is repeated along the axis. *)
Definition broadcast_axis (d1 d2 : nat) : option nat :=
  if (d1 =? d2)%nat then Some d1
  else if (d1 =? 1)%nat then Some d2
  else if (d2 =? 1)%nat then Some d1
  else None.

(** An axis of length 1 repeated to the length [n]; any other axis is
    left as it is. *)
Definition stretch {X : Type} (n : nat) (l : list X) : list X :=
  match l with
  | [x] => repeat x n
  | _ => l
  end.

(** [a + b] on two numpy matrices: entry by entry after broadcasting, and
    [ValueError] when the shapes cannot be broadcast together. *)
Definition madd (a b : Matrix) : result Matrix :=
  let '(r1, c1) := shape a in
  let '(r2, c2) := shape b in
  match broadcast_axis r1 r2, broadcast_axis c1 c2 with
  | Some r, Some c =>
      Ok (zip_with (fun ra rb => zip_with Rplus (stretch c ra) (stretch c rb))
                   (stretch r a) (stretch r b))
  | _, _ => Err ValueError
  end.

(** The additions of [sum], from left to right. *)
Fixpoint madd_all (acc : Matrix) (terms : list Matrix) : result Matrix :=
  match terms with
  | [] => Ok acc
  | t :: terms' =>
      match madd acc t with
      | Ok acc' => madd_all acc' terms'
      | Err e => Err e
      end
  end.

(** Python's [sum] of a non-empty list of matrices: it starts from the
    integer [0], which numpy adds to every entry of the first matrix. *)
Definition py_sum (terms : list Matrix) : result Matrix :=
  match terms with
  | [] => Ok []
  | t :: ts => madd_all (map (map (Rplus 0%R)) t) ts
  end.

Definition vsub (a b : Point) : Point :=
  let '(a0, a1, a2) := a in
  let '(b0, b1, b2) := b in
  ((a0 - b0)%R, (a1 - b1)%R, (a2 - b2)%R).

(** [linalg.norm] of a point: the Euclidean norm. *)
Definition norm (p : Point) : R :=
  let '(x, y, z) := p in sqrt (x * x + y * y + z * z)%R.

(** Python's [max] of a list. *)
Definition py_max (l : list R) : result R :=
  match l with
  | [] => Err ValueError
  | x :: xs => Ok (fold_left Rmax xs x)
  end.

(** Python's true division of two ints. *)
Definition py_div (a b : Z) : result R :=
  if (b =? 0)%Z then Err ZeroDivisionError else Ok (IZR a / IZR b)%R.

Definition is_empty {A : Type} (l : list A) : bool :=
  match l with [] => true | _ => false end.

(** [and] / [or] of Python: the right operand is evaluated only when the
    left one does not decide. *)
Definition py_and (a b : result bool) : result bool :=
  match a with
  | Ok true => b
  | Ok false => Ok false
  | Err e => Err e
  end.
Definition py_or (a b : result bool) : result bool :=
  match a with
  | Ok true => Ok true
  | Ok false => b
  | Err e => Err e
  end.

Definition ge0 (e : list R) (i : nat) : result bool :=
  v <- index e i ;; ret (Rleb 0%R v).
Definition le0 (e : list R) (i : nat) : result bool :=
  v <- index e i ;; ret (Rleb v 0%R).

(** The test of [get_nodes], lines 193-194. *)
Definition same_sign3 (e : list R) : result bool :=
  py_or (py_and (ge0 e 0) (py_and (ge0 e 1) (ge0 e 2)))
        (py_and (le0 e 0) (py_and (le0 e 1) (le0 e 2))).

(** [tmpdir], the class attribute. *)
Definition tmpdir : string := "tmp".

(** [str] of a non-negative int. *)
Definition str (n : N) : string := NilEmpty.string_of_uint (N.to_uint n).

(** What one run of the Singular handler meets: the number drawn by
    [random.randrange(2 ** 32)], whether [print_singular_script] writes the
    script or raises (the template cannot be read), and whether
    [subprocess.check_output] returns the output of [singular] or raises. *)
Record SingularEnv : Type := mkSingularEnv {
  randrange : N;
  script_written : result unit;
  check_output : result string
}.

Definition open_w (path : string) : M unit :=
  modify_world (fun w =>
    mkWorld (if in_dec string_dec path (files w) then files w
             else path :: files w)
            (cvx_calls w)).

Definition os_remove (path : string) : M unit :=
  modify_world (fun w =>
    mkWorld (filter (fun f => negb (String.eqb f path)) (files w))
            (cvx_calls w)).

Definition file_exists (path : string) (s : Machine) : bool :=
  existsb (String.eqb path) (files (world s)).

(** [self.nodes.sort(key=lambda x: x[1], reverse=True)]: a stable sort,
    largest probability first. *)
Fixpoint insert_desc (x : RankedNode) (l : list RankedNode) : list RankedNode :=
  match l with
  | [] => [x]
  | y :: l' => if Rltb (rn_prob x) (rn_prob y) then y :: insert_desc x l'
               else x :: y :: l'
  end.
Definition sort_desc (l : list RankedNode) : list RankedNode :=
  fold_right insert_desc [] l.

Section Pencil.

(** The four matrices of the pencil. *)
Variables A B C D : Matrix.

(** [scipy.linalg.svd]: the triple [(U, s, Vh)]. *)
Variable svd : Matrix -> Matrix * list R * Matrix.

(** [parse_singular_output], lines 112-120, taken as given. *)
Variable parse_singular_output : string -> result (list Point).

Definition matrices : list Matrix := [A; B; C; D].

(** [matrix], lines 65-70. *)
Definition matrix (vector : Point) : result Matrix :=
  let '(x, y, z) := vector in
  let vec := [x; y; z; 1%R] in
  py_sum (zip_with mscale vec matrices).

(** The loop of [eigenvalues], lines 77-79, over the indices still to do. *)
Fixpoint eigenvalues_loop (U Vh : Matrix) (idx : list nat) (eivals : list R)
  : result (list R) :=
  match idx with
  | [] => Ok eivals
  | i :: idx' =>
      u <- entry U i i ;;
      v <- entry Vh i i ;;
      if Rltb (u * v)%R 0%R then
        ei <- index eivals i ;;
        eigenvalues_loop U Vh idx' (update eivals i (ei * -1)%R)
      else eigenvalues_loop U Vh idx' eivals
  end.

(** [eigenvalues], lines 73-80. *)
Definition eigenvalues (vector : Point) : result (list R) :=
  match matrix vector with
  | Ok m =>
      let '(U, s, Vh) := svd m in
      eigenvalues_loop U Vh (seq 0 (List.length s)) s
  | Err e => Err e
  end.

(** [get_nodes_from_singular], lines 86-93.  The directory [tmpdir] is taken
    to exist, so that [open(tmpfile, 'w')] creates the file. *)
Definition get_nodes_from_singular (env : SingularEnv) : M (list Point) :=
  let tmpfile := (tmpdir ++ "/" ++ str (randrange env))%string in
  open_w tmpfile ;;
  lift (script_written env) ;;
  output <- lift (check_output env) ;;
  os_remove tmpfile ;;
  lift (parse_singular_output output).

(** The body of the loop of [get_nodes], lines 192-197. *)
Definition classify (vector : Point) : M unit :=
  e <- lift (eigenvalues vector) ;;
  b <- lift (same_sign3 e) ;;
  if b then modify (fun o => set_spec_nodes (spec_nodes o ++ [(vector, e)]) o)
  else modify (fun o => set_sym_nodes (sym_nodes o ++ [(vector, e)]) o).

(** Lines 189-190 of [get_nodes]: [handler] is [None] for the default. *)
Definition handler_or_default (handler : option (M (list Point)))
    (env : SingularEnv) : M (list Point) :=
  match handler with
  | None => get_nodes_from_singular env
  | Some h => h
  end.

(** [get_nodes], lines 183-197. *)
Definition get_nodes (handler : option (M (list Point))) (env : SingularEnv)
  : M unit :=
  vectors <- handler_or_default handler env ;;
  for_each vectors classify.

(** The inner loop of [process], lines 215-218, for one element [y]. *)
Definition match_node (maxdelta : R) (ms : list Point) (y : PMin) : PMin :=
  fold_left
    (fun y x =>
       let delta := norm (vsub x (pm_point y)) in
       if Rleb delta maxdelta
       then mkPMin (pm_point y) (pm_count y + 1) (pm_eigs y)
       else y)
    ms y.

(** Lines 207-210 of [process]: discovery, when no node is known. *)
Definition discover (env : SingularEnv) : M unit :=
  sn <- gets spec_nodes ;;
  sy <- gets sym_nodes ;;
  if is_empty sn && is_empty sy then
    get_nodes None env ;;
    sn' <- gets spec_nodes ;;
    modify (set_pmins (map (fun node => mkPMin (fst node) 0 (snd node)) sn'))
  else ret tt.

(** Lines 211-218 of [process]: the matching pass. *)
Definition match_mins (tolerance : R) : M unit :=
  pm <- gets pmins ;;
  if negb (is_empty pm) then
    m <- lift (py_max (map (fun y => norm (pm_point y)) pm)) ;;
    let maxdelta := (tolerance * m)%R in
    ms <- gets mins ;;
    modify (set_pmins (map (match_node maxdelta ms) pm))
  else ret tt.

(** [process], lines 200-220. *)
Definition process (tolerance : R) (env : SingularEnv) : M unit :=
  discover env ;;
  match_mins tolerance ;;
  modify (set_mins []).

Definition default_tolerance : R := (1 / 1000)%R.

(** Lines 231-232 of [gen_nodes]. *)
Definition refresh (env : SingularEnv) : M unit :=
  ms <- gets mins ;;
  sy <- gets sym_nodes ;;
  if negb (is_empty ms) || is_empty sy then process default_tolerance env
  else ret tt.

Definition nodes_append (nd : RankedNode) : M unit :=
  modify (fun o => set_nodes (nodes o ++ [nd]) o).

(** Lines 234-241 of [gen_nodes].  [self.trials is not 0] compares an int
    with the int [0]. *)
Definition build_nodes : M unit :=
  modify (set_nodes []) ;;
  t <- gets trials ;;
  pm <- gets pmins ;;
  if negb (t =? 0)%Z then
    for_each pm (fun i =>
      q <- lift (py_div (pm_count i) t) ;;
      nodes_append (pm_point i, q, pm_eigs i)) ;;
    modify (fun o => set_nodes (sort_desc (nodes o)) o)
  else
    for_each pm (fun i => nodes_append (pm_point i, 0%R, pm_eigs i)).

(** [gen_nodes], lines 223-241; its two keyword arguments are never read. *)
Definition gen_nodes (env : SingularEnv) : M unit :=
  refresh env ;;
  build_nodes.

(** A candidate point paired with its eigenvalues, as [get_nodes] stores
    it. *)
Definition eigenpair (vector : Point) : SingularNode :=
  (vector, match eigenvalues vector with Ok e => e | Err _ => [] end).

End Pencil.

(** ** [parse_singular_output] *)

(** The output of [check_output] is a byte string.  [str.find]: the least
    index at which [sub] occurs in [s], or [-1]. *)
Fixpoint str_find_from (sub s : string) (i : Z) : Z :=
  if String.prefix sub s then i
  else match s with
       | EmptyString => (-1)%Z
       | String _ s' => str_find_from sub s' (i + 1)
       end.

Definition str_find (sub s : string) : Z := str_find_from sub s 0.

Fixpoint drop (n : nat) (s : string) : string :=
  match n, s with
  | O, _ => s
  | S n', String _ s' => drop n' s'
  | S _, EmptyString => EmptyString
  end.

(** The slice [s[k:]]: a negative [k] counts from the end of [s]. *)
Definition slice_from (k : Z) (s : string) : string :=
  let n := Z.of_nat (String.length s) in
  let start := if (k <? 0)%Z then Z.max 0 (n + k) else k in
  drop (Z.to_nat start) s.

Definition LF : ascii := "010"%char.
Definition CR : ascii := "013"%char.

(** [str.splitlines()] on a byte string: a line ends at ["\n"], at ["\r"] or
    at ["\r\n"], and a last line without an end is kept unless it is
    empty.  [line] is the line read so far. *)
Fixpoint splitlines_from (s : string) (line : string) : list string :=
  match s with
  | EmptyString =>
      match line with
      | EmptyString => []
      | _ => [line]
      end
  | String c s' =>
      if Ascii.eqb c LF then line :: splitlines_from s' EmptyString
      else if Ascii.eqb c CR then
        match s' with
        | String c' s'' =>
            if Ascii.eqb c' LF then line :: splitlines_from s'' EmptyString
            else line :: splitlines_from s' EmptyString
        | EmptyString => line :: splitlines_from s' EmptyString
        end
      else splitlines_from s' (line ++ String c EmptyString)
  end.

Definition splitlines (s : string) : list string :=
  splitlines_from s EmptyString.

(** [c in s] for a character [c]. *)
Fixpoint has_char (c : ascii) (s : string) : bool :=
  match s with
  | EmptyString => false
  | String c' s' => Ascii.eqb c c' || has_char c s'
  end.

(** [range(0, 140, 7)]. *)
Definition block_starts : list nat := map (fun k => 7 * k)%nat (seq 0 20).

Section Parse.

(** [float] on a string: the number, or [ValueError]. *)
Variable py_float : string -> result R.

(** ['(' in split[k]]. *)
Definition paren_at (split : list string) (k : nat) : result bool :=
  line <- index split k ;; ret (has_char "(" line).

(** [float(split[k])]. *)
Definition float_at (split : list string) (k : nat) : result R :=
  line <- index split k ;; py_float line.

(** The loop of [parse_singular_output], lines 116-119, over the block
    starts still to do. *)
Fixpoint parse_blocks (split : list string) (starts : list nat)
    (vectors : list Point) : result (list Point) :=
  match starts with
  | [] => Ok vectors
  | i :: starts' =>
      match py_or (py_or (paren_at split (i + 2)) (paren_at split (i + 4)))
                  (paren_at split (i + 6)) with
      | Ok true => parse_blocks split starts' vectors
      | Ok false =>
          x <- float_at split (i + 2) ;;
          y <- float_at split (i + 4) ;;
          z <- float_at split (i + 6) ;;
          parse_blocks split starts' (vectors ++ [(x, y, z)])
      | Err e => Err e
      end
  end.

(** [parse_singular_output], lines 112-120. *)
Definition parse_singular_output (output : string) : result (list Point) :=
  let split := splitlines (slice_from (str_find "[1]" output) output) in
  parse_blocks split block_starts [].

(** The block that starts at line [i] has a ['('] on one of its three
    coordinate lines. *)
Definition block_skipped (split : list string) (i : nat) : bool :=
  has_char "(" (nth (i + 2) split EmptyString)
  || has_char "(" (nth (i + 4) split EmptyString)
  || has_char "(" (nth (i + 6) split EmptyString).

(** The three coordinate lines of the block that starts at line [i] read as
    the point [p]. *)
Definition block_reads (split : list string) (i : nat) (p : Point) : Prop :=
  let '(x, y, z) := p in
  py_float (nth (i + 2) split EmptyString) = Ok x
  /\ py_float (nth (i + 4) split EmptyString) = Ok y
  /\ py_float (nth (i + 6) split EmptyString) = Ok z.

End Parse.

(** ** Observations on a run *)

(** The flag that gates the sub-problem on a component. *)
Definition latch (c : Component) (o : SDP) : bool :=
  match c with
  | PSD => psd_spec o
  | NSD => nsd_spec o
  end.

Definition component_eqb (a b : Component) : bool :=
  match a, b with
  | PSD, PSD | NSD, NSD => true
  | _, _ => false
  end.

(** How many times the solver has been called on a component so far. *)
Definition attempts (c : Component) (s : Machine) : nat :=
  List.length (filter (component_eqb c) (cvx_calls (world s))).

(** A sequence of calls to [solve] on the same object.  A caller that
    catches the exception of one call goes on with the object as the call
    left it. *)
Fixpoint run_solves (calls : list (Z * (nat -> Trial))) (s : Machine)
  : Machine :=
  match calls with
  | [] => s
  | (n, oracle) :: calls' => run_solves calls' (snd (solve n oracle s))
  end.

(** Both sub-problems are run in the trial that starts in [s] and both
    report [SOLVED]. *)
Definition both_solved_here (s : Machine) (t : Trial) : bool :=
  psd_spec (self s) && status_eqb (status (psd_answer t)) SOLVED
  && nsd_spec (self s) && status_eqb (status (nsd_answer t)) SOLVED.

(** The calls made to the solver in the trial that starts in [s]. *)
Definition calls_of_trial (s : Machine) : list Component :=
  (if nsd_spec (self s) then [NSD] else [])
  ++ (if psd_spec (self s) then [PSD] else []).

(** While the PSD latch is down, the local [psd_status] is either unbound or
    left at [INFEASIBLE] by the trial that lowered the latch. *)
Definition stale_ok (ps : option Status) (s : Machine) : Prop :=
  psd_spec (self s) = false -> ps = None \/ ps = Some INFEASIBLE.

(** The temporary file of a run of the Singular handler. *)
Definition tmpfile_of (env : SingularEnv) : string :=
  (tmpdir ++ "/" ++ str (randrange env))%string.

(** The sign correction of [eigenvalues] on one entry, in the words of the
    specification: the singular value, negated when the product of the two
    diagonal entries is negative. *)
Definition sign_corrected (u w si : R) : R :=
  if Rltb (u * w)%R 0%R then (- si)%R else si.

(** The classification in the words of the specification: the first three
    eigenvalues are all [>= 0] or all [<= 0]. *)
Definition first3_same_sign (e : list R) : bool :=
  match e with
  | e0 :: e1 :: e2 :: _ =>
      (Rleb 0%R e0 && Rleb 0%R e1 && Rleb 0%R e2)
      || (Rleb e0 0%R && Rleb e1 0%R && Rleb e2 0%R)
  | _ => false
  end.

Definition is_spectrahedral (nd : SingularNode) : bool :=
  first3_same_sign (snd nd).

(** Where [classify] puts a point with eigenvalues [e]. *)
Definition filed (nd : SingularNode) (o : SDP) : SDP :=
  if is_spectrahedral nd then set_spec_nodes (spec_nodes o ++ [nd]) o
  else set_sym_nodes (sym_nodes o ++ [nd]) o.

(** The matching of [process] in the words of the specification.  [dist] is
    the Euclidean distance, [max_norm] the largest norm of a point of
    [pmins], and an element of [pmins] gains one occurrence for every
    minimum within the threshold of its point. *)
Definition dist (x y : Point) : R := norm (vsub x y).

Definition max_norm (pm : list PMin) : R :=
  match map (fun y => norm (pm_point y)) pm with
  | [] => 0%R
  | r :: rs => fold_left Rmax rs r
  end.

Definition within (d : R) (p x : Point) : bool := Rleb (dist x p) d.

Definition matched (d : R) (ms : list Point) (y : PMin) : PMin :=
  mkPMin (pm_point y)
         (pm_count y + Z.of_nat (List.length (filter (within d (pm_point y)) ms)))
         (pm_eigs y).

(** The ranking of [gen_nodes] in the words of the specification: the
    occurrences over the trials, or [0] when there has been no trial. *)
Definition zero_prob (i : PMin) : RankedNode :=
  (pm_point i, 0%R, pm_eigs i).
Definition ratio (t : Z) (i : PMin) : RankedNode :=
  (pm_point i, (IZR (pm_count i) / IZR t)%R, pm_eigs i).
Definition ranking (t : Z) (pm : list PMin) : list RankedNode :=
  if (t =? 0)%Z then map zero_prob pm else sort_desc (map (ratio t) pm).

(** Both sub-problems are run in the trial that starts in [s] and both
    report [UNBOUNDED]. *)
Definition both_unbounded_here (s : Machine) (t : Trial) : bool :=
  psd_spec (self s) && status_eqb (status (psd_answer t)) UNBOUNDED
  && nsd_spec (self s) && status_eqb (status (nsd_answer t)) UNBOUNDED.

(** The two direction counters stay within the number of trials. *)
Definition counters_ok (o : SDP) : Prop :=
  (0 <= fully_bounded_directions o)%Z
  /\ (0 <= fully_unbounded_directions o)%Z
  /\ (fully_bounded_directions o + fully_unbounded_directions o
       <= trials o)%Z.

(** Some node has been found: [process] will not run the discovery. *)
Definition nodes_known (o : SDP) : Prop :=
  spec_nodes o <> [] \/ sym_nodes o <> [].

(** The nodes of a ranking that carry the probability [p]. *)
Definition prob_is (p : R) (nd : RankedNode) : bool :=
  if Req_dec_T (rn_prob nd) p then true else false.

(** A ranking with the largest probability first. *)
Definition descending (l : list RankedNode) : Prop :=
  StronglySorted (fun a b => (rn_prob b <= rn_prob a)%R) l.

(** ** Runs of the public methods *)

(** A call of one of the methods that sample, discover, match and rank,
    with what the outside world answers during the call. *)
Inductive Op : Type :=
| OpSolve (n : Z) (oracle : nat -> Trial)
| OpGetNodes (env : SingularEnv)
| OpProcess (tolerance : R) (env : SingularEnv)
| OpGenNodes (env : SingularEnv).

Section Runs.

Variables A B C D : Matrix.
Variable svd : Matrix -> Matrix * list R * Matrix.
Variable parse_singular_output : string -> result (list Point).

Definition run_op (op : Op) : M unit :=
  match op with
  | OpSolve n oracle => solve n oracle
  | OpGetNodes env => get_nodes A B C D svd parse_singular_output None env
  | OpProcess tolerance env =>
      process A B C D svd parse_singular_output tolerance env
  | OpGenNodes env => gen_nodes A B C D svd parse_singular_output env
  end.

(** A script that calls the methods one after the other; the first
    exception ends it. *)
Definition run_ops (ops : list Op) : M unit := for_each ops run_op.

End Runs.

(** [solve] is asked for a number of trials that is not negative. *)
Definition nonneg_solve (op : Op) : Prop :=
  match op with
  | OpSolve n _ => (0 <= n)%Z
  | _ => True
  end.

(** The fields the ranking is computed from. *)
Definition tally_fields (o : SDP)
  : list Point * list PMin * list RankedNode * Z :=
  (mins o, pmins o, nodes o, trials o).

(** Every occurrence count, with the raw minima still to be matched, is
    covered by two minima per trial, and every probability of the ranking
    is between 0 and 2. *)
Definition tally_ok (o : SDP) : Prop :=
  (0 <= trials o)%Z
  /\ (Z.of_nat (List.length (mins o)) <= 2 * trials o)%Z
  /\ Forall (fun y => (0 <= pm_count y)%Z
                      /\ (pm_count y + Z.of_nat (List.length (mins o))
                           <= 2 * trials o)%Z)
            (pmins o)
  /\ Forall (fun nd => (0 <= rn_prob nd <= 2)%R) (nodes o).

(** A matrix of [r] rows with [c] columns each. *)
Definition has_shape (r c : nat) (m : Matrix) : Prop :=
  List.length m = r /\ Forall (fun row => List.length row = c) m.

(** What a sub-problem adds to the object apart from the two direction
    counters: a minimum appended when it is solved, its latch lowered when
    it is infeasible, nothing when it is not run or reports anything
    else. *)
Definition psd_effect (t : Trial) (o : SDP) : SDP :=
  if psd_spec o then
    match status (psd_answer t) with
    | SOLVED => set_mins (mins o ++ [value (psd_answer t)]) o
    | INFEASIBLE => set_psd_spec false o
    | _ => o
    end
  else o.

Definition nsd_effect (t : Trial) (o : SDP) : SDP :=
  if nsd_spec o then
    match status (nsd_answer t) with
    | SOLVED => set_mins (mins o ++ [value (nsd_answer t)]) o
    | INFEASIBLE => set_nsd_spec false o
    | _ => o
    end
  else o.

(** ** Sample inputs *)

Definition origin : Point := (0%R, 0%R, 0%R).

Definition solved_at (p : Point) : Answer := mkAnswer SOLVED p.
Definition no_answer (st : Status) : Answer := mkAnswer st origin.

(** A trial in which the solver reports an unexpected status twice. *)
Definition unknown_trial : Trial :=
  mkTrial (no_answer UNKNOWN) (no_answer UNKNOWN).

(** A trial with an infeasible PSD and a solved NSD sub-problem. *)
Definition psd_infeasible_trial : Trial :=
  mkTrial (no_answer INFEASIBLE) (solved_at origin).

(** Trials in which one sub-problem reports an unexpected status and the
    other is solved at [(1, 0, 0)]. *)
Definition unknown_psd_trial : Trial :=
  mkTrial (no_answer UNKNOWN) (solved_at (1%R, 0%R, 0%R)).
Definition unknown_nsd_trial : Trial :=
  mkTrial (solved_at (1%R, 0%R, 0%R)) (no_answer UNKNOWN).

(** A run of the handler in which [singular] exits with an error. *)
Definition failing_env : SingularEnv :=
  mkSingularEnv 7 (Ok tt) (Err CalledProcessError).

(** A run of the handler in which [singular] prints its report. *)
Definition working_env : SingularEnv :=
  mkSingularEnv 7 (Ok tt) (Ok "[1]:"%string).

Definition node_p : Point := (1%R, 0%R, 0%R).

(** The parse of that report: one node, at [(1, 0, 0)]. *)
Definition parse_one_node (output : string) : result (list Point) :=
  Ok [node_p].

(** Square matrices with the entries of [l] on the diagonal and zero
    elsewhere. *)
Fixpoint diag_row (before : nat) (x : R) (after : nat) : list R :=
  match before with
  | O => x :: repeat 0%R after
  | S b => 0%R :: diag_row b x after
  end.

Fixpoint diag_rows (before : nat) (l : list R) : Matrix :=
  match l with
  | [] => []
  | x :: l' => diag_row before x (List.length l') :: diag_rows (S before) l'
  end.

Definition diag (l : list R) : Matrix := diag_rows 0 l.

(** A 3 x 3 pencil with [A = B = C = 0] and [D = diag(3, -2, 1)], and the
    singular value decomposition [D = I * diag(3, 2, 1) * diag(1, -1, 1)]. *)
Definition zero3 : Matrix := diag [0; 0; 0]%R.
Definition sample_D : Matrix := diag [3; -2; 1]%R.
Definition sample_svd (m : Matrix) : Matrix * list R * Matrix :=
  (diag [1; 1; 1]%R, [3; 2; 1]%R, diag [1; -1; 1]%R).

(** An object whose one node [(2, 0, 0)] is known and which holds one raw
    minimum, at the origin. *)
Definition node_q : Point := (2%R, 0%R, 0%R).
Definition boundary_machine : Machine :=
  mkMachine
    (mkSDP [origin] [mkPMin node_q 0 [0; 0; 0]%R] []
           [(node_q, [0; 0; 0]%R)] [] 1%Z true true 0%Z 0%Z)
    (mkWorld [] []).

(** An object on which [process] has run and [solve] has not. *)
Definition discovered_machine : Machine :=
  mkMachine
    (mkSDP [] [mkPMin node_q 0 [0; 0; 0]%R] []
           [(node_q, [0; 0; 0]%R)] [(origin, [3; 2 * -1; 1]%R)]
           0%Z true true 0%Z 0%Z)
    (mkWorld [] []).

(** A pencil whose two components both reduce to the point [(1, 0, 0)]:
    [M(x, y, z) = diag(x - 1, y, z, 1 - x - y - z, y)] is positive
    semidefinite only there, and negative semidefinite only there; at that
    point it is the zero matrix, of which [I * 0 * I] is a decomposition. *)
Definition fail_A : Matrix := diag [1; 0; 0; -1; 0]%R.
Definition fail_B : Matrix := diag [0; 1; 0; -1; 1]%R.
Definition fail_C : Matrix := diag [0; 0; 1; -1; 0]%R.
Definition fail_D : Matrix := diag [-1; 0; 0; 1; 0]%R.
Definition fail_svd (m : Matrix) : Matrix * list R * Matrix :=
  (diag [1; 1; 1; 1; 1]%R, [0; 0; 0; 0; 0]%R, diag [1; 1; 1; 1; 1]%R).

(** The diagonal of a matrix. *)
Definition diagonal (m : Matrix) : list R :=
  map (fun i => nth i (nth i m []) 0%R) (seq 0 (List.length m)).

(** The trial on that pencil: both sub-problems are solved at the point. *)
Definition both_at_p : Trial := mkTrial (solved_at node_p) (solved_at node_p).

(** An object on which [get_nodes] has been called directly, before any
    [process], and [solve] once. *)
Definition handler_machine : Machine :=
  mkMachine
    (mkSDP [origin] [] [] [(node_q, [0; 0; 0]%R)] [] 1%Z true true 0%Z 0%Z)
    (mkWorld [] [NSD; PSD]).

(** An object with one known node, counted once in two trials. *)
Definition sampled_machine : Machine :=
  mkMachine
    (mkSDP [] [mkPMin node_q 1 [0; 0; 0]%R] []
           [(node_q, [0; 0; 0]%R)] [(origin, [3; 2 * -1; 1]%R)]
           2%Z true true 0%Z 0%Z)
    (mkWorld [] []).

(** A 2 x 2 pencil at a point where the eigenvalues are [1] and [-1], and a
    3 x 3 one where all three are [1]. *)
Definition zero2 : Matrix := diag [0; 0]%R.
Definition sample_D2 : Matrix := diag [1; -1]%R.
Definition sample_svd2 (m : Matrix) : Matrix * list R * Matrix :=
  (diag [1; 1]%R, [1; 1]%R, diag [1; -1]%R).
Definition sample_svd_id (m : Matrix) : Matrix * list R * Matrix :=
  (diag [1; 1; 1]%R, [1; 1; 1]%R, diag [1; 1; 1]%R).

(** A report of [singular] with twenty blocks of seven lines: the first two
    carry the real point [(1, 0, 0)], the others a complex one. *)
Definition real_block : list string :=
  ["[1]:"; "   [1]:"; "1"; "   [2]:"; "0"; "   [3]:"; "0"]%string.
Definition complex_block : list string :=
  ["[1]:"; "   [1]:"; "(i*2)"; "   [2]:"; "0"; "   [3]:"; "(-i)"]%string.
Definition sample_report : string :=
  ("// solutions" ++ String LF
     (String.concat (String LF EmptyString)
        (real_block ++ real_block
         ++ flat_map (fun _ => complex_block) (seq 0 18))))%string.

(** A reader of the two numerals the report uses. *)
Definition sample_float (line : string) : result R :=
  if String.eqb line "1" then Ok 1%R
  else if String.eqb line "0" then Ok 0%R
  else Err ValueError.

(** ** Properties *)

Lemma Rleb_true_iff (x y : R) : Rleb x y = true <-> (x <= y)%R.
Proof. unfold Rleb. destruct (Rle_dec x y); split; intros; try easy. Qed.

Lemma Rleb_false_iff (x y : R) : Rleb x y = false <-> (y < x)%R.
Proof.
  unfold Rleb. destruct (Rle_dec x y); split; intros; try easy; lra.
Qed.

Lemma Rltb_true_iff (x y : R) : Rltb x y = true <-> (x < y)%R.
Proof. unfold Rltb. destruct (Rlt_dec x y); split; intros; try easy. Qed.

Lemma Rltb_false_iff (x y : R) : Rltb x y = false <-> (y <= x)%R.
Proof.
  unfold Rltb. destruct (Rlt_dec x y); split; intros; try easy; lra.
Qed.

(** Settles the comparisons of reals left in a goal by linear arithmetic. *)
Ltac decide_Rtests :=
  repeat match goal with
  | |- context [Rltb ?a ?b] =>
      first [ rewrite (proj2 (Rltb_true_iff a b)) by lra
            | rewrite (proj2 (Rltb_false_iff a b)) by lra ]
  | |- context [Rleb ?a ?b] =>
      first [ rewrite (proj2 (Rleb_true_iff a b)) by lra
            | rewrite (proj2 (Rleb_false_iff a b)) by lra ]
  end.

(** *** The sampling loop *)

Ltac unfold_solve :=
  unfold solve_trial, psd_block, nsd_block, cvx_solve, read_local,
    mins_append, raise, gets, modify, modify_world, attempts, latch,
    both_solved_here, calls_of_trial in *;
  cbn in *.

Ltac split_state s :=
  destruct s as [[? ? ? ? ? ? [|] [|] ? ?] [? ?]]; cbn in *.

Ltac split_trial t :=
  destruct t as [[[| | |] ?] [[| | |] ?]]; cbn in *.

(** One trial never raises a latch and never calls the solver on a component
    whose latch is down. *)
Lemma solve_trial_latch (c : Component) (t : Trial) (ps : option Status)
    (s : Machine) :
  latch c (self s) = false ->
  latch c (self (snd (solve_trial t ps s))) = false
  /\ attempts c (snd (solve_trial t ps s)) = attempts c s.
Proof.
  intros H. split_state s; split_trial t;
    destruct c, ps as [[| | |]|]; unfold_solve;
    try discriminate; split; reflexivity.
Qed.

Lemma solve_loop_cons (t : Trial) (ts : list Trial) (ps : option Status)
    (s : Machine) :
  solve_loop (t :: ts) ps s =
  match solve_trial t ps s with
  | (Ok ps', s') => solve_loop ts ps' s'
  | (Err e, s') => (Err e, s')
  end.
Proof. reflexivity. Qed.

Lemma solve_unfold (n : Z) (oracle : nat -> Trial) (s : Machine) :
  solve n oracle s =
  match solve_loop (map oracle (seq 0 (Z.to_nat n))) None s with
  | (Ok _, s') => (Ok tt, mkMachine (set_trials (trials (self s') + n) (self s'))
                                    (world s'))
  | (Err e, s') => (Err e, s')
  end.
Proof. reflexivity. Qed.

Lemma solve_loop_latch (c : Component) (ts : list Trial) :
  forall (ps : option Status) (s : Machine),
    latch c (self s) = false ->
    latch c (self (snd (solve_loop ts ps s))) = false
    /\ attempts c (snd (solve_loop ts ps s)) = attempts c s.
Proof.
  induction ts as [|t ts IH]; intros ps s H.
  - split; [exact H | reflexivity].
  - rewrite solve_loop_cons.
    destruct (solve_trial_latch c t ps s H) as [H1 H2].
    destruct (solve_trial t ps s) as [[ps'|e] s'] eqn:E; cbn in *.
    + destruct (IH ps' s' H1) as [H3 H4]. split; [exact H3 | congruence].
    + split; assumption.
Qed.

Lemma solve_latch (c : Component) (n : Z) (oracle : nat -> Trial)
    (s : Machine) :
  latch c (self s) = false ->
  latch c (self (snd (solve n oracle s))) = false
  /\ attempts c (snd (solve n oracle s)) = attempts c s.
Proof.
  intros H. rewrite solve_unfold.
  destruct (solve_loop_latch c (map oracle (seq 0 (Z.to_nat n))) None s H)
    as [H1 H2].
  destruct (solve_loop _ None s) as [[ps'|e] s'] eqn:E; cbn in *.
  - split; [|exact H2]. destruct c; exact H1.
  - split; assumption.
Qed.

Lemma run_solves_latch (c : Component) (calls : list (Z * (nat -> Trial))) :
  forall s : Machine,
    latch c (self s) = false ->
    latch c (self (run_solves calls s)) = false
    /\ attempts c (run_solves calls s) = attempts c s.
Proof.
  induction calls as [|[n oracle] calls IH]; intros s H.
  - split; [exact H | reflexivity].
  - change (run_solves ((n, oracle) :: calls) s)
      with (run_solves calls (snd (solve n oracle s))).
    destruct (solve_latch c n oracle s H) as [H1 H2].
    destruct (IH _ H1) as [H3 H4]. split; [exact H3 | congruence].
Qed.

(** C2.  Monotone latches.  Take any state in which the flag of a component
    ([psd_spec] for PSD, [nsd_spec] for NSD) is false, at any point of a
    call to [solve]: [rest] are the trials the call still has to run and
    [ps] is whatever [psd_status] holds at that point (unbound, or the
    status of an earlier trial of the call).  Then the flag is false, and
    the solver has not been called on that component again,
    - after every one of the remaining trials of that call ([s1], as [rest]
      is any list of trials);
    - after the call has ended (adding [added] to [trials]) and any sequence
      of further calls to [solve] has run ([s2]);
    - after any number of trials of one more call, again with any value of
      [psd_status] ([s3]);
    whatever the solver answers and whether or not a call raises. *)
Theorem latch_stays_down (c : Component) (rest : list Trial)
    (ps : option Status) (added : Z) (calls : list (Z * (nat -> Trial)))
    (running : list Trial) (ps' : option Status) :
  forall s : Machine,
    latch c (self s) = false ->
    let s1 := snd (solve_loop rest ps s) in
    let ended := mkMachine (set_trials (trials (self s1) + added) (self s1))
                           (world s1) in
    let s2 := run_solves calls ended in
    let s3 := snd (solve_loop running ps' s2) in
    (latch c (self s1) = false /\ attempts c s1 = attempts c s)
    /\ (latch c (self s2) = false /\ attempts c s2 = attempts c s)
    /\ (latch c (self s3) = false /\ attempts c s3 = attempts c s).
Proof.
  intros s H. cbv zeta.
  destruct (solve_loop_latch c rest ps s H) as [H1 H2].
  set (s1 := snd (solve_loop rest ps s)) in *.
  set (ended := mkMachine (set_trials (trials (self s1) + added) (self s1))
                          (world s1)).
  assert (He : latch c (self ended) = false) by (destruct c; exact H1).
  assert (Ha : attempts c ended = attempts c s) by exact H2.
  destruct (run_solves_latch c calls ended He) as [H3 H4].
  destruct (solve_loop_latch c running ps' _ H3) as [H5 H6].
  repeat split; congruence.
Qed.

(** The state in which a later call to [solve] finds the object once the PSD
    component has been found infeasible. *)
Lemma psd_latched_state :
  solve 1 (fun _ => psd_infeasible_trial) init_machine
  = (Ok tt,
     mkMachine (mkSDP [origin] [] [] [] [] 1%Z false true 0%Z 0%Z)
               (mkWorld [] [NSD; PSD])).
Proof. reflexivity. Qed.

(** A call [solve(10)] whose first trial finds the PSD component infeasible:
    the nine trials that follow in the same call run with [psd_status] left
    at [INFEASIBLE]; then two more calls, and two trials of a third.  The
    solver has been called on the PSD component once, in the first trial. *)
Lemma latch_stays_down_witness :
  let s := snd (solve_trial psd_infeasible_trial None init_machine) in
  let rest := repeat (mkTrial (solved_at origin) (solved_at origin)) 9 in
  let calls := [(3%Z, fun _ : nat => mkTrial (solved_at origin)
                                            (no_answer INFEASIBLE));
                (2%Z, fun _ : nat => unknown_trial)] in
  let s1 := snd (solve_loop rest (Some INFEASIBLE) s) in
  let ended := mkMachine (set_trials (trials (self s1) + 10) (self s1))
                         (world s1) in
  let s2 := run_solves calls ended in
  let s3 := snd (solve_loop [unknown_trial; unknown_trial] None s2) in
  latch PSD (self s) = false
  /\ attempts PSD s = 1%nat
  /\ (latch PSD (self s1) = false /\ attempts PSD s1 = attempts PSD s)
  /\ (latch PSD (self s2) = false /\ attempts PSD s2 = attempts PSD s)
  /\ (latch PSD (self s3) = false /\ attempts PSD s3 = attempts PSD s).
Proof.
  cbv zeta. split; [reflexivity|]. split; [reflexivity|].
  apply (latch_stays_down PSD). reflexivity.
Defined.

Lemma solve_trial_stale (t : Trial) (ps ps' : option Status)
    (s s' : Machine) :
  stale_ok ps s ->
  solve_trial t ps s = (Ok ps', s') ->
  stale_ok ps' s'.
Proof.
  unfold stale_ok. intros H E.
  split_state s; split_trial t; destruct ps as [[| | |]|]; unfold_solve;
    inversion E; subst; cbn; intros; try discriminate; auto;
    destruct H as [H|H]; auto; discriminate.
Qed.

Lemma solve_loop_stale (ts : list Trial) :
  forall (ps ps' : option Status) (s s' : Machine),
    stale_ok ps s ->
    solve_loop ts ps s = (Ok ps', s') ->
    stale_ok ps' s'.
Proof.
  induction ts as [|t ts IH]; intros ps ps' s s' H E.
  - inversion E; subst. exact H.
  - rewrite solve_loop_cons in E.
    destruct (solve_trial t ps s) as [[ps1|e] s1] eqn:E1; [|discriminate].
    eapply IH; [|exact E]. eapply solve_trial_stale; eassumption.
Qed.

(** C3.  In a trial of [solve] reached after any number of earlier trials of
    the same call, [fully_bounded_directions] goes up by one exactly when
    the PSD and the NSD sub-problem are both run in that trial and both
    report [SOLVED], and is unchanged otherwise; the calls made to the
    solver in the trial are those whose latch is up when it starts.  A
    status left in [psd_status] by an earlier trial never counts. *)
Theorem fully_bounded_same_trial (earlier : list Trial) (t : Trial)
    (s s1 : Machine) (ps : option Status) :
  solve_loop earlier None s = (Ok ps, s1) ->
  let s2 := snd (solve_trial t ps s1) in
  fully_bounded_directions (self s2)
  = (fully_bounded_directions (self s1)
     + (if both_solved_here s1 t then 1 else 0))%Z
  /\ cvx_calls (world s2) = calls_of_trial s1 ++ cvx_calls (world s1).
Proof.
  intros E.
  assert (H : stale_ok ps s1).
  { eapply solve_loop_stale; [|exact E]. intros _. left. reflexivity. }
  unfold stale_ok in H. clear E.
  split_state s1; split_trial t; destruct ps as [[| | |]|]; unfold_solve;
    try (split; [ring | reflexivity]);
    destruct H as [H|H]; try reflexivity; discriminate.
Qed.

(** A trial with both sub-problems solved, after a trial with none. *)
Lemma fully_bounded_same_trial_witness :
  let t := mkTrial (solved_at origin) (solved_at origin) in
  let s1 := snd (solve_loop [unknown_trial] None init_machine) in
  let s2 := snd (solve_trial t (Some UNKNOWN) s1) in
  solve_loop [unknown_trial] None init_machine = (Ok (Some UNKNOWN), s1)
  /\ fully_bounded_directions (self s2)
     = (fully_bounded_directions (self s1)
        + (if both_solved_here s1 t then 1 else 0))%Z
  /\ cvx_calls (world s2) = calls_of_trial s1 ++ cvx_calls (world s1).
Proof.
  cbv zeta. split; [reflexivity|].
  apply (fully_bounded_same_trial [unknown_trial]
           (mkTrial (solved_at origin) (solved_at origin)) init_machine).
  reflexivity.
Defined.

(** C10.  A call [solve(n)] with [n >= 1], entered with [psd_spec] false and
    [nsd_spec] true, whose first NSD sub-problem reports [SOLVED] or
    [UNBOUNDED], reads [psd_status] while it is unbound: the call raises
    [NameError] in its first trial, after one call to the solver, and
    [trials] is not increased. *)
Theorem solve_reads_unbound_psd_status (n : Z) (oracle : nat -> Trial)
    (s : Machine) :
  (1 <= n)%Z ->
  psd_spec (self s) = false ->
  nsd_spec (self s) = true ->
  status (nsd_answer (oracle 0%nat)) = SOLVED
  \/ status (nsd_answer (oracle 0%nat)) = UNBOUNDED ->
  fst (solve n oracle s) = Err (NameError "psd_status")
  /\ trials (self (snd (solve n oracle s))) = trials (self s)
  /\ cvx_calls (world (snd (solve n oracle s))) = NSD :: cvx_calls (world s).
Proof.
  intros Hn Hp Hs Hst. rewrite solve_unfold.
  destruct (Z.to_nat n) as [|k] eqn:Ek; [lia|].
  change (map oracle (seq 0 (S k)))
    with (oracle 0%nat :: map oracle (seq 1 k)).
  rewrite solve_loop_cons.
  destruct (oracle 0%nat) as [pa [nst nv]]. cbn in Hst.
  split_state s; try discriminate.
  destruct Hst; subst nst; unfold_solve; repeat split; reflexivity.
Qed.

(** A second call of [solve] after the PSD latch went down in the first. *)
Lemma solve_reads_unbound_psd_status_witness :
  let s := snd (solve 1 (fun _ => psd_infeasible_trial) init_machine) in
  let oracle := fun _ : nat => mkTrial (no_answer UNKNOWN) (solved_at origin) in
  (1 <= 2)%Z
  /\ psd_spec (self s) = false
  /\ nsd_spec (self s) = true
  /\ fst (solve 2 oracle s) = Err (NameError "psd_status")
  /\ trials (self (snd (solve 2 oracle s))) = trials (self s)
  /\ cvx_calls (world (snd (solve 2 oracle s))) = NSD :: cvx_calls (world s).
Proof.
  cbv zeta. split; [lia|]. split; [reflexivity|]. split; [reflexivity|].
  apply solve_reads_unbound_psd_status;
    [lia | reflexivity | reflexivity | left; reflexivity].
Defined.

(** C4, as the claim states it, fails.  With the status [UNKNOWN] on both
    sub-problems neither block raises anything and the call returns
    normally; and with [UNKNOWN] on the PSD sub-problem alone the call
    returns normally too, with the minimum of the NSD sub-problem of that
    same trial in [mins]: the contribution of the trial is not skipped. *)
Lemma unknown_status_raises_nothing :
  (forall e : exn, fst (psd_block unknown_trial None init_machine) <> Err e)
  /\ (forall e : exn,
        fst (nsd_block unknown_trial (Some UNKNOWN) init_machine) <> Err e)
  /\ solve 1 (fun _ => unknown_trial) init_machine
     = (Ok tt,
        mkMachine (mkSDP [] [] [] [] [] 1%Z true true 0%Z 0%Z)
                  (mkWorld [] [NSD; PSD]))
  /\ solve 1 (fun _ => unknown_psd_trial) init_machine
     = (Ok tt,
        mkMachine (mkSDP [node_p] [] [] [] [] 1%Z true true 0%Z 0%Z)
                  (mkWorld [] [NSD; PSD])).
Proof.
  split; [|split; [|split]];
    [intros e H; discriminate H
    |intros e H; discriminate H
    |reflexivity
    |reflexivity].
Qed.

(** C4, amended.  A sub-problem that is run and reports a status outside
    solved / infeasible / unbounded raises no error: its block returns
    normally and leaves every field of the object as it was (no minimum
    appended, no latch lowered, no counter changed).  The other sub-problem
    of the same trial still makes its contribution, a minimum appended or a
    latch lowered, and neither direction counter changes in that trial; the
    trial returns normally and the loop goes on with the remaining trials.
    The first part is the PSD sub-problem with such a status, the second the
    NSD one. *)
Theorem unknown_status_is_ignored (t : Trial) (ps : option Status)
    (s : Machine) (rest : list Trial) :
  (psd_spec (self s) = true ->
   status (psd_answer t) = UNKNOWN ->
   exists s1 s2,
     psd_block t ps s = (Ok (Some UNKNOWN), s1)
     /\ self s1 = self s
     /\ solve_trial t ps s = (Ok (Some UNKNOWN), s2)
     /\ self s2 = nsd_effect t (self s)
     /\ solve_loop (t :: rest) ps s = solve_loop rest (Some UNKNOWN) s2)
  /\ (nsd_spec (self s) = true ->
      status (nsd_answer t) = UNKNOWN ->
      exists ps1 s1 s2,
        psd_block t ps s = (Ok ps1, s1)
        /\ self s1 = psd_effect t (self s)
        /\ nsd_block t ps1 s1 = (Ok tt, s2)
        /\ self s2 = self s1
        /\ solve_trial t ps s = (Ok ps1, s2)
        /\ solve_loop (t :: rest) ps s = solve_loop rest ps1 s2).
Proof.
  split.
  - intros Hp Hst. rewrite solve_loop_cons.
    destruct t as [[pst pv] [nst nv]]; cbn [status psd_answer] in Hst.
    subst pst. unfold nsd_effect.
    destruct s as [[ms pm nd sp sy tr p n fb fu] [fs cs]]; cbn in Hp.
    subst p. destruct n, nst; unfold_solve;
      do 2 eexists; repeat split; reflexivity.
  - intros Hn Hst. rewrite solve_loop_cons.
    destruct t as [[pst pv] [nst nv]]; cbn [status nsd_answer] in Hst.
    subst nst. unfold psd_effect.
    destruct s as [[ms pm nd sp sy tr p n fb fu] [fs cs]]; cbn in Hn.
    subst n. destruct p, pst; unfold_solve;
      do 3 eexists; repeat split; reflexivity.
Qed.

(** The unexpected status on the PSD sub-problem while the NSD one is
    solved, and on the NSD sub-problem while the PSD one is solved: in both
    trials the minimum of the other sub-problem is appended. *)
Lemma unknown_status_is_ignored_witness :
  (exists s1 s2,
     psd_block unknown_psd_trial None init_machine = (Ok (Some UNKNOWN), s1)
     /\ self s1 = self init_machine
     /\ solve_trial unknown_psd_trial None init_machine
        = (Ok (Some UNKNOWN), s2)
     /\ self s2 = nsd_effect unknown_psd_trial (self init_machine)
     /\ solve_loop [unknown_psd_trial; psd_infeasible_trial] None init_machine
        = solve_loop [psd_infeasible_trial] (Some UNKNOWN) s2)
  /\ (exists ps1 s1 s2,
        psd_block unknown_nsd_trial None init_machine = (Ok ps1, s1)
        /\ self s1 = psd_effect unknown_nsd_trial (self init_machine)
        /\ nsd_block unknown_nsd_trial ps1 s1 = (Ok tt, s2)
        /\ self s2 = self s1
        /\ solve_trial unknown_nsd_trial None init_machine = (Ok ps1, s2)
        /\ solve_loop [unknown_nsd_trial; psd_infeasible_trial] None
                      init_machine
           = solve_loop [psd_infeasible_trial] ps1 s2)
  /\ mins (nsd_effect unknown_psd_trial (self init_machine)) = [node_p]
  /\ mins (psd_effect unknown_nsd_trial (self init_machine)) = [node_p].
Proof.
  destruct (unknown_status_is_ignored unknown_psd_trial None init_machine
              [psd_infeasible_trial]) as [H1 _].
  destruct (unknown_status_is_ignored unknown_nsd_trial None init_machine
              [psd_infeasible_trial]) as [_ H2].
  split; [exact (H1 eq_refl eq_refl)|].
  split; [exact (H2 eq_refl eq_refl)|].
  split; reflexivity.
Defined.

(** *** The Singular handler and its temporary file *)

Lemma file_exists_open_w (path : string) (s : Machine) :
  file_exists path (snd (open_w path s)) = true.
Proof.
  unfold file_exists, open_w, modify_world. cbn.
  apply existsb_exists. exists path. split; [|apply String.eqb_refl].
  destruct (in_dec string_dec path (files (world s))) as [H|H];
    [exact H | left; reflexivity].
Qed.

Lemma file_exists_os_remove (path : string) (s : Machine) :
  file_exists path (snd (os_remove path s)) = false.
Proof.
  unfold file_exists, os_remove, modify_world. cbn.
  induction (files (world s)) as [|f l IH]; [reflexivity|]. cbn.
  destruct (String.eqb f path) eqn:E; cbn; [exact IH|].
  rewrite String.eqb_sym, E. exact IH.
Qed.

(** When [singular] runs and its output parses, the handler returns with the
    temporary file removed. *)
Lemma handler_removes_tmpfile (parse : string -> result (list Point))
    (env : SingularEnv) (output : string) (s : Machine) :
  script_written env = Ok tt ->
  check_output env = Ok output ->
  fst (get_nodes_from_singular parse env s) = parse output
  /\ file_exists (tmpfile_of env) (snd (get_nodes_from_singular parse env s))
     = false.
Proof.
  intros Hs Hc. unfold get_nodes_from_singular, lift. cbn.
  rewrite Hs, Hc. cbn. split; [reflexivity|].
  apply (file_exists_os_remove (tmpfile_of env)
           (snd (open_w (tmpfile_of env) s))).
Qed.

(** When [check_output] raises, the exception leaves the handler before
    [os.remove] is reached. *)
Lemma handler_leaves_tmpfile (parse : string -> result (list Point))
    (env : SingularEnv) (e : exn) (s : Machine) :
  script_written env = Ok tt ->
  check_output env = Err e ->
  fst (get_nodes_from_singular parse env s) = Err e
  /\ file_exists (tmpfile_of env) (snd (get_nodes_from_singular parse env s))
     = true.
Proof.
  intros Hs Hc. unfold get_nodes_from_singular, lift. cbn.
  rewrite Hs, Hc. cbn. split; [reflexivity|].
  apply (file_exists_open_w (tmpfile_of env) s).
Qed.

(** C5.  The claim fails on the code: when the call of [singular] raises
    [CalledProcessError], [get_nodes_from_singular] propagates the exception
    and the temporary file ["tmp/7"] it created is still on disk; in the
    run where [singular] succeeds the same file is removed. *)
Theorem tmpfile_left_when_singular_fails :
  get_nodes_from_singular parse_one_node failing_env init_machine
  = (Err CalledProcessError, mkMachine init (mkWorld ["tmp/7"%string] []))
  /\ file_exists "tmp/7"
       (snd (get_nodes_from_singular parse_one_node failing_env init_machine))
     = true
  /\ file_exists "tmp/7"
       (snd (get_nodes_from_singular parse_one_node working_env init_machine))
     = false.
Proof. repeat split. Qed.

(** *** [eigenvalues] *)

Lemma update_length {A : Type} (l : list A) :
  forall (i : nat) (v : A), List.length (update l i v) = List.length l.
Proof.
  induction l as [|a l IH]; intros [|i] v; cbn; try reflexivity.
  now rewrite IH.
Qed.

Lemma nth_error_update_eq {A : Type} (l : list A) :
  forall (i : nat) (v : A),
    (i < List.length l)%nat -> nth_error (update l i v) i = Some v.
Proof.
  induction l as [|a l IH]; intros [|i] v H; cbn in *; try lia.
  - reflexivity.
  - apply IH. lia.
Qed.

Lemma nth_error_update_neq {A : Type} (l : list A) :
  forall (i j : nat) (v : A),
    i <> j -> nth_error (update l i v) j = nth_error l j.
Proof.
  induction l as [|a l IH]; intros [|i] [|j] v H; cbn; try reflexivity.
  - contradiction.
  - apply IH. lia.
Qed.

Lemma index_Some {A : Type} (l : list A) (i : nat) (a : A) :
  nth_error l i = Some a -> index l i = Ok a.
Proof. unfold index. now intros ->. Qed.

(** The loop, run over the indices [k, ..., k + m - 1], corrects exactly
    those entries and leaves the others alone. *)
Lemma eigenvalues_loop_spec (U Vh : Matrix) :
  forall (m k : nat) (eivals : list R),
    (k + m <= List.length eivals)%nat ->
    (forall i, (k <= i < k + m)%nat ->
               exists u w, entry U i i = Ok u /\ entry Vh i i = Ok w) ->
    exists e,
      eigenvalues_loop U Vh (seq k m) eivals = Ok e
      /\ List.length e = List.length eivals
      /\ (forall i, (i < k \/ k + m <= i)%nat ->
                    nth_error e i = nth_error eivals i)
      /\ (forall i si u w,
             (k <= i < k + m)%nat ->
             nth_error eivals i = Some si ->
             entry U i i = Ok u -> entry Vh i i = Ok w ->
             nth_error e i = Some (sign_corrected u w si)).
Proof.
  induction m as [|m IH]; intros k eivals Hlen Hdiag.
  - exists eivals. cbn. repeat split; try reflexivity. intros; lia.
  - destruct (Hdiag k ltac:(lia)) as [u [w [Hu Hw]]].
    destruct (nth_error eivals k) as [ek|] eqn:Ek;
      [|apply nth_error_None in Ek; lia].
    cbn [seq eigenvalues_loop]. rewrite Hu, Hw. cbn [bind Monad_result].
    destruct (Rltb (u * w) 0) eqn:Eneg.
    + rewrite (index_Some _ _ _ Ek).
      destruct (IH (S k) (update eivals k (ek * -1)%R)) as [e [He [Hl [Ho Hi]]]].
      { rewrite update_length. lia. }
      { intros i Hi. apply Hdiag. lia. }
      exists e. split; [exact He|]. split; [now rewrite Hl, update_length|].
      split.
      * intros i Hi'. rewrite Ho by lia. apply nth_error_update_neq. lia.
      * intros i si u' w' Hr Hsi Hu' Hw'.
        destruct (Nat.eq_dec i k) as [->|Hne].
        -- rewrite Ho by lia.
           rewrite nth_error_update_eq by lia.
           rewrite Hu in Hu'. rewrite Hw in Hw'.
           inversion Hu'; inversion Hw'; subst u' w'.
           rewrite Ek in Hsi. inversion Hsi; subst si.
           unfold sign_corrected. rewrite Eneg. f_equal. ring.
        -- apply Hi; try assumption; try lia.
           rewrite nth_error_update_neq by lia. exact Hsi.
    + destruct (IH (S k) eivals) as [e [He [Hl [Ho Hi]]]].
      { lia. }
      { intros i Hi. apply Hdiag. lia. }
      exists e. split; [exact He|]. split; [exact Hl|].
      split.
      * intros i Hi'. apply Ho. lia.
      * intros i si u' w' Hr Hsi Hu' Hw'.
        destruct (Nat.eq_dec i k) as [->|Hne].
        -- rewrite Ho by lia.
           rewrite Hu in Hu'. rewrite Hw in Hw'.
           inversion Hu'; inversion Hw'; subst u' w'.
           rewrite Hsi. unfold sign_corrected. now rewrite Eneg.
        -- apply Hi; try assumption; lia.
Qed.

Lemma Rabs_sign_corrected (u w si : R) :
  (0 <= si)%R -> Rabs (sign_corrected u w si) = si.
Proof.
  intros H. unfold sign_corrected. destruct (Rltb (u * w) 0).
  - rewrite Rabs_Ropp. now apply Rabs_pos_eq.
  - now apply Rabs_pos_eq.
Qed.

(** On matrices of one shape the additions of [matrix] all succeed. *)
Lemma sample_matrix_ok (v : Point) :
  exists m, matrix zero3 zero3 zero3 sample_D v = Ok m.
Proof. destruct v as [[x y] z]. eexists. reflexivity. Qed.

Section EigenvaluesProperties.

Variables A B C D : Matrix.
Variable svd : Matrix -> Matrix * list R * Matrix.

(** C7.  When [matrix(point)] is the matrix [m] and [svd] returns
    [(U, s, Vh)] for it, with [s] the singular values (none negative) and
    [U], [Vh] having a diagonal entry for each of them, [eigenvalues(point)]
    returns a sequence [e] of the same length whose absolute values are the
    singular values, and every entry [e[i]], for all [i] and not only the
    first three, is [s[i]] negated exactly when [U[i,i] * Vh[i,i] < 0]. *)
Theorem eigenvalues_sign_correction (point : Point) (m U Vh : Matrix)
    (s : list R) :
  matrix A B C D point = Ok m ->
  svd m = (U, s, Vh) ->
  (forall i, (i < List.length s)%nat ->
             exists u w, entry U i i = Ok u /\ entry Vh i i = Ok w) ->
  Forall (fun si => (0 <= si)%R) s ->
  exists e,
    eigenvalues A B C D svd point = Ok e
    /\ List.length e = List.length s
    /\ map Rabs e = s
    /\ (forall i si u w,
           nth_error s i = Some si ->
           entry U i i = Ok u -> entry Vh i i = Ok w ->
           nth_error e i = Some (if Rltb (u * w) 0 then (- si)%R else si)).
Proof.
  intros Hm Hsvd Hdiag Hpos. unfold eigenvalues. rewrite Hm, Hsvd.
  destruct (eigenvalues_loop_spec U Vh (List.length s) 0 s) as [e [He [Hl [_ Hi]]]].
  { cbn. lia. }
  { intros i Hi. apply Hdiag. lia. }
  exists e. split; [exact He|]. split; [exact Hl|]. split.
  - apply nth_error_ext. intros i. rewrite nth_error_map.
    destruct (nth_error s i) as [si|] eqn:Esi.
    + destruct (Hdiag i) as [u [w [Hu Hw]]].
      { apply nth_error_Some. congruence. }
      rewrite (Hi i si u w); try assumption.
      * cbn. f_equal. apply Rabs_sign_corrected.
        rewrite Forall_forall in Hpos. apply Hpos.
        eapply nth_error_In; eassumption.
      * assert (i < List.length s)%nat by (apply nth_error_Some; congruence).
        lia.
    + apply nth_error_None in Esi.
      assert (Hn : nth_error e i = None) by (apply nth_error_None; lia).
      now rewrite Hn.
  - intros i si u w Hsi Hu Hw.
    apply (Hi i si u w); try assumption.
    assert (i < List.length s)%nat by (apply nth_error_Some; congruence).
    lia.
Qed.

End EigenvaluesProperties.

(** On [diag(3, -2, 1)] the second singular value is the one negated. *)
Lemma eigenvalues_sign_correction_witness :
  (exists m, matrix zero3 zero3 zero3 sample_D origin = Ok m
             /\ sample_svd m
                = (diag [1; 1; 1]%R, [3; 2; 1]%R, diag [1; -1; 1]%R))
  /\ exists e,
       eigenvalues zero3 zero3 zero3 sample_D sample_svd origin = Ok e
       /\ List.length e = 3%nat
       /\ map Rabs e = [3; 2; 1]%R
       /\ (forall i si u w,
              nth_error [3; 2; 1]%R i = Some si ->
              entry (diag [1; 1; 1]%R) i i = Ok u ->
              entry (diag [1; -1; 1]%R) i i = Ok w ->
              nth_error e i = Some (if Rltb (u * w) 0 then (- si)%R else si)).
Proof.
  destruct (sample_matrix_ok origin) as [m Hm].
  split; [exists m; split; [exact Hm | reflexivity]|].
  apply (eigenvalues_sign_correction zero3 zero3 zero3 sample_D sample_svd
           origin m (diag [1; 1; 1]%R) (diag [1; -1; 1]%R) [3; 2; 1]%R).
  - exact Hm.
  - reflexivity.
  - intros [|[|[|i]]] Hi; cbn in Hi; try lia; cbn; eauto.
  - repeat constructor; lra.
Defined.

(** *** [get_nodes] *)

Lemma same_sign3_spec (e : list R) :
  (3 <= List.length e)%nat -> same_sign3 e = Ok (first3_same_sign e).
Proof.
  destruct e as [|e0 [|e1 [|e2 l]]]; cbn; intros H; try lia.
  unfold same_sign3, ge0, le0, index. cbn.
  destruct (Rleb 0 e0), (Rleb 0 e1), (Rleb 0 e2),
    (Rleb e0 0), (Rleb e1 0), (Rleb e2 0); reflexivity.
Qed.

Section GetNodesProperties.

Variables A B C D : Matrix.
Variable svd : Matrix -> Matrix * list R * Matrix.
Variable parse_singular_output : string -> result (list Point).

Lemma classify_spec (vector : Point) (e : list R) (s : Machine) :
  eigenvalues A B C D svd vector = Ok e ->
  (3 <= List.length e)%nat ->
  classify A B C D svd vector s
  = (Ok tt, mkMachine (filed (eigenpair A B C D svd vector) (self s))
                      (world s)).
Proof.
  intros He Hl. unfold classify, filed, eigenpair, is_spectrahedral, lift,
    modify. cbn. rewrite He. cbn. rewrite (same_sign3_spec e Hl).
  destruct (first3_same_sign e); reflexivity.
Qed.

Lemma for_each_classify (vectors : list Point) :
  forall s : Machine,
    (forall v, In v vectors ->
               exists e, eigenvalues A B C D svd v = Ok e
                         /\ (3 <= List.length e)%nat) ->
    exists s',
      for_each vectors (classify A B C D svd) s = (Ok tt, s')
      /\ world s' = world s
      /\ spec_nodes (self s')
         = spec_nodes (self s)
           ++ filter is_spectrahedral (map (eigenpair A B C D svd) vectors)
      /\ sym_nodes (self s')
         = sym_nodes (self s)
           ++ filter (fun nd => negb (is_spectrahedral nd))
                     (map (eigenpair A B C D svd) vectors)
      /\ mins (self s') = mins (self s)
      /\ pmins (self s') = pmins (self s)
      /\ trials (self s') = trials (self s).
Proof.
  induction vectors as [|v vs IH]; intros s H.
  - exists s. cbn. rewrite !app_nil_r. repeat split; reflexivity.
  - destruct (H v (or_introl eq_refl)) as [e [He Hl]].
    cbn [for_each bind Monad_M]. rewrite (classify_spec v e s He Hl).
    destruct (IH (mkMachine (filed (eigenpair A B C D svd v) (self s))
                            (world s)))
      as [s' [E [Hw [Hsp [Hsy [Hm [Hp Ht]]]]]]].
    { intros v' Hv'. apply H. now right. }
    exists s'. split; [exact E|]. cbn [map filter].
    unfold filed in *. cbn [self world] in *.
    destruct (is_spectrahedral (eigenpair A B C D svd v)); cbn in *;
      rewrite Hsp, Hsy, Hm, Hp, Ht, Hw; rewrite <- ?app_assoc;
      repeat split; reflexivity.
Qed.

(** C8.  When the handler returns its candidates and [eigenvalues] yields at
    least three values for each of them, [get_nodes] returns normally and
    appends every candidate, with its eigenvalues, to exactly one of
    [spec_nodes] and [sym_nodes]: to [spec_nodes] when the first three
    eigenvalues are all [>= 0] or all [<= 0], to [sym_nodes] otherwise. *)
Theorem get_nodes_classifies (handler : option (M (list Point)))
    (env : SingularEnv) (s s1 : Machine) (vectors : list Point) :
  handler_or_default parse_singular_output handler env s = (Ok vectors, s1) ->
  (forall v, In v vectors ->
             exists e, eigenvalues A B C D svd v = Ok e
                       /\ (3 <= List.length e)%nat) ->
  let found := map (eigenpair A B C D svd) vectors in
  let to_spec := filter is_spectrahedral found in
  let to_sym := filter (fun nd => negb (is_spectrahedral nd)) found in
  exists s2,
    get_nodes A B C D svd parse_singular_output handler env s = (Ok tt, s2)
    /\ spec_nodes (self s2) = spec_nodes (self s1) ++ to_spec
    /\ sym_nodes (self s2) = sym_nodes (self s1) ++ to_sym
    /\ (List.length to_spec + List.length to_sym = List.length vectors)%nat
    /\ (forall nd, In nd found ->
          (In nd to_spec /\ ~ In nd to_sym) \/ (In nd to_sym /\ ~ In nd to_spec)).
Proof.
  intros Hh Heig found to_spec to_sym.
  destruct (for_each_classify vectors s1 Heig)
    as [s2 [E [_ [Hsp [Hsy _]]]]].
  exists s2. split.
  { unfold get_nodes. cbn [bind Monad_M]. rewrite Hh. exact E. }
  split; [exact Hsp|]. split; [exact Hsy|]. split.
  - unfold to_spec, to_sym.
    rewrite <- (length_map (eigenpair A B C D svd) vectors).
    fold found. clear. induction found as [|nd l IH]; [reflexivity|].
    cbn. destruct (is_spectrahedral nd); cbn; lia.
  - intros nd Hnd. unfold to_spec, to_sym.
    destruct (is_spectrahedral nd) eqn:E'.
    + left. split.
      * apply filter_In. now split.
      * intros Hc. apply filter_In in Hc. rewrite E' in Hc.
        destruct Hc as [_ Hc]. discriminate.
    + right. split.
      * apply filter_In. split; [exact Hnd | now rewrite E'].
      * intros Hc. apply filter_In in Hc. destruct Hc as [_ Hc]. congruence.
Qed.

End GetNodesProperties.

Lemma sample_eigenvalues (v : Point) :
  eigenvalues zero3 zero3 zero3 sample_D sample_svd v
  = Ok [3; 2 * -1; 1]%R.
Proof.
  destruct v as [[x y] z]. unfold eigenvalues, sample_svd. cbn. decide_Rtests. cbn.
  decide_Rtests. cbn. decide_Rtests. reflexivity.
Qed.

(** Two candidates handed over by a handler of the caller's. *)
Lemma get_nodes_classifies_witness :
  let handler := Some (ret [node_p; origin] : M (list Point)) in
  let found := map (eigenpair zero3 zero3 zero3 sample_D sample_svd)
                   [node_p; origin] in
  let to_spec := filter is_spectrahedral found in
  let to_sym := filter (fun nd => negb (is_spectrahedral nd)) found in
  handler_or_default parse_one_node handler working_env init_machine
  = (Ok [node_p; origin], init_machine)
  /\ exists s2,
       get_nodes zero3 zero3 zero3 sample_D sample_svd parse_one_node
                 handler working_env init_machine = (Ok tt, s2)
       /\ spec_nodes (self s2) = spec_nodes (self init_machine) ++ to_spec
       /\ sym_nodes (self s2) = sym_nodes (self init_machine) ++ to_sym
       /\ (List.length to_spec + List.length to_sym = 2)%nat
       /\ (forall nd, In nd found ->
             (In nd to_spec /\ ~ In nd to_sym)
             \/ (In nd to_sym /\ ~ In nd to_spec)).
Proof.
  cbv zeta. split; [reflexivity|].
  apply (get_nodes_classifies zero3 zero3 zero3 sample_D sample_svd
           parse_one_node (Some (ret [node_p; origin] : M (list Point)))
           working_env init_machine init_machine [node_p; origin]).
  - reflexivity.
  - intros v _. exists [3; 2 * -1; 1]%R. split.
    + apply sample_eigenvalues.
    + cbn. lia.
Defined.

(** *** [process] *)

Lemma match_node_spec (d : R) (ms : list Point) :
  forall y : PMin, match_node d ms y = matched d ms y.
Proof.
  unfold match_node, matched.
  induction ms as [|x ms IH]; intros [p c e]; cbn.
  - f_equal. lia.
  - unfold within at 1. unfold dist.
    destruct (Rleb (norm (vsub x p)) d); rewrite IH; cbn; f_equal; lia.
Qed.

Lemma fold_left_Rmax_ge (l : list R) :
  forall x : R,
    (x <= fold_left Rmax l x)%R
    /\ (forall a, In a l -> (a <= fold_left Rmax l x)%R)
    /\ In (fold_left Rmax l x) (x :: l).
Proof.
  induction l as [|b l IH]; intros x; cbn.
  - split; [lra|]. split; [tauto | now left].
  - destruct (IH (Rmax x b)) as [H1 [H2 H3]].
    pose proof (Rmax_l x b). pose proof (Rmax_r x b).
    split; [lra|]. split.
    + intros a [<-|Ha]; [lra | now apply H2].
    + destruct H3 as [H3|H3]; [|now right; right].
      rewrite <- H3. unfold Rmax. destruct (Rle_dec x b); auto.
Qed.

Lemma max_norm_is_max (pm : list PMin) :
  (forall y, In y pm -> (norm (pm_point y) <= max_norm pm)%R)
  /\ (pm <> [] -> exists y, In y pm /\ max_norm pm = norm (pm_point y)).
Proof.
  unfold max_norm. destruct pm as [|y0 pm]; cbn.
  - split; [contradiction | congruence].
  - destruct (fold_left_Rmax_ge (map (fun y => norm (pm_point y)) pm)
                (norm (pm_point y0))) as [H1 [H2 H3]].
    split.
    + intros y [<-|Hy]; [exact H1|].
      apply H2. apply in_map_iff. now exists y.
    + intros _. destruct H3 as [H3|H3].
      * exists y0. split; [now left | now symmetry].
      * apply in_map_iff in H3. destruct H3 as [y [Hy Hin]].
        exists y. split; [now right | now symmetry].
Qed.

Lemma match_mins_spec (tolerance : R) (s : Machine) :
  match_mins tolerance s
  = (Ok tt,
     mkMachine
       (set_pmins (map (matched (tolerance * max_norm (pmins (self s)))
                                (mins (self s)))
                       (pmins (self s)))
                  (self s))
       (world s)).
Proof.
  unfold match_mins, gets, modify, lift, max_norm. cbn.
  destruct s as [[ms pm nd sp sy t p n fb fu] w]; cbn.
  destruct pm as [|y pm]; cbn; [reflexivity|].
  do 3 f_equal. f_equal; [apply match_node_spec|].
  apply map_ext. intros y'. apply match_node_spec.
Qed.

Lemma process_unfold (A B C D : Matrix)
    (svd : Matrix -> Matrix * list R * Matrix)
    (parse : string -> result (list Point))
    (tolerance : R) (env : SingularEnv) (s : Machine) :
  process A B C D svd parse tolerance env s
  = match discover A B C D svd parse env s with
    | (Ok _, s1) =>
        (Ok tt,
         mkMachine
           (set_mins []
              (set_pmins
                 (map (matched (tolerance * max_norm (pmins (self s1)))
                               (mins (self s1)))
                      (pmins (self s1)))
                 (self s1)))
           (world s1))
    | (Err e, s1) => (Err e, s1)
    end.
Proof.
  unfold process. cbn [bind Monad_M].
  destruct (discover A B C D svd parse env s) as [[[]|e] s1]; [|reflexivity].
  rewrite match_mins_spec. reflexivity.
Qed.

Section ProcessProperties.

Variables A B C D : Matrix.
Variable svd : Matrix -> Matrix * list R * Matrix.
Variable parse_singular_output : string -> result (list Point).

(** C6.  Once the nodes are known ([s1] is the state after the discovery
    step), [process(tolerance)] uses the one threshold
    [max_delta = tolerance * max_norm], where [max_norm] is the largest
    Euclidean norm of a point of [pmins], for every element of [pmins]; the
    occurrence count of an element goes up by the number of raw minima whose
    Euclidean distance to its point is [<= max_delta], a minimum at distance
    exactly [max_delta] included; [mins] is emptied. *)
Theorem process_matches_within_max_delta (tolerance : R) (env : SingularEnv)
    (s s1 : Machine) :
  discover A B C D svd parse_singular_output env s = (Ok tt, s1) ->
  let pm := pmins (self s1) in
  let max_delta := (tolerance * max_norm pm)%R in
  process A B C D svd parse_singular_output tolerance env s
  = (Ok tt,
     mkMachine
       (set_mins []
          (set_pmins (map (matched max_delta (mins (self s1))) pm) (self s1)))
       (world s1))
  /\ (forall y, In y pm -> (norm (pm_point y) <= max_norm pm)%R)
  /\ (pm <> [] -> exists y, In y pm /\ max_norm pm = norm (pm_point y))
  /\ (forall p x, within max_delta p x = true <-> (dist x p <= max_delta)%R)
  /\ (forall p x, dist x p = max_delta -> within max_delta p x = true).
Proof.
  intros Hd pm max_delta. split.
  { rewrite process_unfold, Hd. reflexivity. }
  destruct (max_norm_is_max pm) as [H1 H2].
  split; [exact H1|]. split; [exact H2|]. split.
  - intros p x. apply Rleb_true_iff.
  - intros p x Hx. apply Rleb_true_iff. rewrite Hx. lra.
Qed.

End ProcessProperties.

(** The boundary: with tolerance [1] the threshold is [2], the distance from
    the origin to the node [(2, 0, 0)], and the minimum at the origin is
    counted. *)
Lemma process_matches_within_max_delta_witness :
  discover zero3 zero3 zero3 sample_D sample_svd parse_one_node working_env
           boundary_machine = (Ok tt, boundary_machine)
  /\ dist origin node_q = (1 * max_norm (pmins (self boundary_machine)))%R
  /\ pmins (self (snd (process zero3 zero3 zero3 sample_D sample_svd
                               parse_one_node 1 working_env boundary_machine)))
     = [mkPMin node_q 1 [0; 0; 0]%R].
Proof.
  assert (Hb : dist origin node_q
               = (1 * max_norm (pmins (self boundary_machine)))%R).
  { unfold dist, max_norm, norm, vsub, origin, node_q. cbn.
    rewrite Rmult_1_l. f_equal. ring. }
  split; [reflexivity|]. split; [exact Hb|].
  destruct (process_matches_within_max_delta zero3 zero3 zero3 sample_D
              sample_svd parse_one_node 1 working_env
              boundary_machine boundary_machine eq_refl)
    as [Hp [_ [_ [_ Hin]]]].
  rewrite Hp. cbn [snd self pmins set_mins set_pmins boundary_machine map].
  unfold matched. cbn [pm_point pm_count pm_eigs mins filter].
  pose proof (Hin node_q origin Hb) as Hw.
  cbn [pmins self boundary_machine] in Hw. rewrite Hw. reflexivity.
Defined.

(** *** [gen_nodes] *)

Lemma for_each_trials {X : Type} (body : X -> M unit) (l : list X) :
  (forall a s, trials (self (snd (body a s))) = trials (self s)) ->
  forall s, trials (self (snd (for_each l body s))) = trials (self s).
Proof.
  intros H. induction l as [|a l IH]; intros s; [reflexivity|].
  cbn [for_each bind Monad_M]. pose proof (H a s) as Ha.
  destruct (body a s) as [[[]|e] s']; cbn in *.
  - now rewrite IH.
  - exact Ha.
Qed.

Lemma handler_keeps_self (parse : string -> result (list Point))
    (env : SingularEnv) (s : Machine) :
  self (snd (get_nodes_from_singular parse env s)) = self s.
Proof.
  unfold get_nodes_from_singular, lift, open_w, os_remove, modify_world. cbn.
  destruct (script_written env) as [[]|e]; [|reflexivity].
  destruct (check_output env) as [out|e]; [|reflexivity]. cbn.
  destruct (parse out); reflexivity.
Qed.

Section GenNodesProperties.

Variables A B C D : Matrix.
Variable svd : Matrix -> Matrix * list R * Matrix.
Variable parse_singular_output : string -> result (list Point).

Lemma classify_trials (vector : Point) (s : Machine) :
  trials (self (snd (classify A B C D svd vector s))) = trials (self s).
Proof.
  unfold classify, lift, modify. cbn.
  destruct (eigenvalues A B C D svd vector) as [e|]; [|reflexivity]. cbn.
  destruct (same_sign3 e) as [[|]|]; reflexivity.
Qed.

Lemma discover_trials (env : SingularEnv) (s : Machine) :
  trials (self (snd (discover A B C D svd parse_singular_output env s)))
  = trials (self s).
Proof.
  unfold discover, get_nodes, handler_or_default, gets, modify.
  cbn [bind Monad_M].
  destruct (is_empty (spec_nodes (self s)) && is_empty (sym_nodes (self s)));
    [|reflexivity].
  pose proof (handler_keeps_self parse_singular_output env s) as Hs.
  destruct (get_nodes_from_singular parse_singular_output env s)
    as [[vs|e] s']; cbn in Hs.
  - pose proof (for_each_trials (classify A B C D svd) vs classify_trials s')
      as Hf.
    destruct (for_each vs (classify A B C D svd) s') as [[[]|e] s2];
      cbn in *; congruence.
  - cbn. congruence.
Qed.

Lemma refresh_trials (env : SingularEnv) (s : Machine) :
  trials (self (snd (refresh A B C D svd parse_singular_output env s)))
  = trials (self s).
Proof.
  unfold refresh, gets. cbn [bind Monad_M].
  destruct (negb (is_empty (mins (self s))) || is_empty (sym_nodes (self s)));
    [|reflexivity].
  rewrite process_unfold.
  pose proof (discover_trials env s) as Hd.
  destruct (discover A B C D svd parse_singular_output env s) as [[[]|e] s1];
    cbn in *; exact Hd.
Qed.

End GenNodesProperties.

Lemma for_each_zero_prob (l : list PMin) :
  forall s : Machine,
    for_each l (fun i => nodes_append (pm_point i, 0%R, pm_eigs i)) s
    = (Ok tt,
       mkMachine (set_nodes (nodes (self s) ++ map zero_prob l) (self s))
                 (world s)).
Proof.
  induction l as [|i l IH]; intros [[ms pm nd sp sy t p n fb fu] w].
  - cbn. unfold set_nodes; cbn. now rewrite app_nil_r.
  - cbn [for_each bind Monad_M]. unfold nodes_append at 1, modify. cbn.
    rewrite IH. cbn. unfold set_nodes; cbn. now rewrite <- app_assoc.
Qed.

Lemma for_each_cons {X : Type} (body : X -> M unit) (a : X) (l : list X)
    (s : Machine) :
  for_each (a :: l) body s
  = match body a s with
    | (Ok _, s') => for_each l body s'
    | (Err e, s') => (Err e, s')
    end.
Proof. reflexivity. Qed.

Lemma ratio_step (t : Z) (i : PMin) (s : Machine) :
  t <> 0%Z ->
  (q <- lift (py_div (pm_count i) t) ;;
   nodes_append (pm_point i, q, pm_eigs i)) s
  = (Ok tt,
     mkMachine (set_nodes (nodes (self s) ++ [ratio t i]) (self s)) (world s)).
Proof.
  intros Ht. cbn [bind Monad_M]. unfold lift, py_div.
  destruct (Z.eqb_spec t 0) as [|_]; [contradiction|]. reflexivity.
Qed.

Lemma for_each_ratio (t : Z) (l : list PMin) :
  t <> 0%Z ->
  forall s : Machine,
    for_each l (fun i => q <- lift (py_div (pm_count i) t) ;;
                         nodes_append (pm_point i, q, pm_eigs i)) s
    = (Ok tt,
       mkMachine (set_nodes (nodes (self s) ++ map (ratio t) l) (self s))
                 (world s)).
Proof.
  intros Ht.
  induction l as [|i l IH]; intros s.
  - destruct s as [[ms pm nd sp sy t' p n fb fu] w].
    cbn. unfold set_nodes; cbn. now rewrite app_nil_r.
  - rewrite for_each_cons, (ratio_step t i s Ht), IH.
    destruct s as [[ms pm nd sp sy t' p n fb fu] w].
    cbn. unfold set_nodes; cbn. now rewrite <- app_assoc.
Qed.

(** [build_nodes] always returns normally, with the ranking in [nodes]. *)
Lemma build_nodes_spec (s : Machine) :
  build_nodes s
  = (Ok tt,
     mkMachine (set_nodes (ranking (trials (self s)) (pmins (self s)))
                          (self s))
               (world s)).
Proof.
  unfold build_nodes, ranking, gets, modify. cbn [bind Monad_M].
  destruct s as [[ms pm nd sp sy t p n fb fu] w]. cbn.
  destruct (Z.eqb_spec t 0) as [->|Ht]; cbn.
  - rewrite for_each_zero_prob. reflexivity.
  - rewrite (for_each_ratio t pm Ht). reflexivity.
Qed.

Section ZeroTrials.

Variables A B C D : Matrix.
Variable svd : Matrix -> Matrix * list R * Matrix.
Variable parse_singular_output : string -> result (list Point).

(** C9.  With [trials = 0], once the refresh step of [gen_nodes] has
    returned (in state [s1]), [gen_nodes] returns normally and [nodes] lists
    every element of [pmins] with probability [0]; and in no state at all
    does the step that computes the probabilities raise: the division is
    reached only in the branch where [trials] is not zero. *)
Theorem gen_nodes_zero_trials (env : SingularEnv) (s s1 : Machine) :
  trials (self s) = 0%Z ->
  refresh A B C D svd parse_singular_output env s = (Ok tt, s1) ->
  gen_nodes A B C D svd parse_singular_output env s
  = (Ok tt,
     mkMachine (set_nodes (map (fun i => (pm_point i, 0%R, pm_eigs i))
                               (pmins (self s1)))
                          (self s1))
               (world s1))
  /\ Forall (fun nd => rn_prob nd = 0%R)
       (nodes (self (snd (gen_nodes A B C D svd parse_singular_output env s))))
  /\ (forall s0 : Machine, fst (build_nodes s0) = Ok tt).
Proof.
  intros Ht Hr.
  assert (Ht1 : trials (self s1) = 0%Z).
  { pose proof (refresh_trials A B C D svd parse_singular_output env s) as H.
    rewrite Hr in H. cbn in H. congruence. }
  assert (Hg : gen_nodes A B C D svd parse_singular_output env s
               = (Ok tt,
                  mkMachine (set_nodes (map zero_prob (pmins (self s1)))
                                       (self s1))
                            (world s1))).
  { unfold gen_nodes. cbn [bind Monad_M]. rewrite Hr, build_nodes_spec.
    unfold ranking. rewrite Ht1. reflexivity. }
  split; [exact Hg|]. split.
  - rewrite Hg. cbn. apply Forall_forall. intros nd Hnd.
    apply in_map_iff in Hnd. destruct Hnd as [i [<- _]]. reflexivity.
  - intros s0. rewrite build_nodes_spec. reflexivity.
Qed.

End ZeroTrials.

(** [gen_nodes] on an object that has sampled nothing yet. *)
Lemma gen_nodes_zero_trials_witness :
  trials (self discovered_machine) = 0%Z
  /\ gen_nodes zero3 zero3 zero3 sample_D sample_svd parse_one_node
               working_env discovered_machine
     = (Ok tt,
        mkMachine (set_nodes [(node_q, 0%R, [0; 0; 0]%R)]
                             (self discovered_machine))
                  (world discovered_machine))
  /\ Forall (fun nd => rn_prob nd = 0%R)
       (nodes (self (snd (gen_nodes zero3 zero3 zero3 sample_D sample_svd
                            parse_one_node working_env discovered_machine))))
  /\ (forall s0 : Machine, fst (build_nodes s0) = Ok tt).
Proof.
  split; [reflexivity|].
  apply (gen_nodes_zero_trials zero3 zero3 zero3 sample_D sample_svd
           parse_one_node working_env discovered_machine discovered_machine);
    reflexivity.
Defined.

(** *** The probabilities of the ranking *)

Lemma dist_self (p : Point) : dist p p = 0%R.
Proof.
  destruct p as [[x y] z]. unfold dist, vsub, norm.
  replace ((x - x) * (x - x) + (y - y) * (y - y) + (z - z) * (z - z))%R
    with 0%R by ring.
  apply sqrt_0.
Qed.

Lemma norm_nonneg (p : Point) : (0 <= norm p)%R.
Proof. destruct p as [[x y] z]. unfold norm. apply sqrt_pos. Qed.

Lemma within_self (d : R) (p : Point) : (0 <= d)%R -> within d p p = true.
Proof. intros H. apply Rleb_true_iff. now rewrite dist_self. Qed.

(** On the sample pencil both components are the single point [(1, 0, 0)],
    where the matrix vanishes: a diagonal matrix is positive (negative)
    semidefinite exactly when no diagonal entry is negative (positive). *)
Lemma fail_pencil_components (x y z : R) :
  exists m,
    matrix fail_A fail_B fail_C fail_D (x, y, z) = Ok m
    /\ (Forall (fun d => (0 <= d)%R) (diagonal m) <-> (x, y, z) = node_p)
    /\ (Forall (fun d => (d <= 0)%R) (diagonal m) <-> (x, y, z) = node_p).
Proof.
  eexists. split; [reflexivity|].
  unfold diagonal, node_p. cbn.
  split; split; intros H.
  - inversion_clear H as [|? ? H0 H']. inversion_clear H' as [|? ? H1 H''].
    inversion_clear H'' as [|? ? H2 H']. inversion_clear H' as [|? ? H3 _].
    assert (x = 1)%R by lra. assert (y = 0)%R by lra. assert (z = 0)%R by lra.
    congruence.
  - inversion H; subst. repeat constructor; lra.
  - inversion_clear H as [|? ? H0 H']. inversion_clear H' as [|? ? H1 H''].
    inversion_clear H'' as [|? ? H2 H']. inversion_clear H' as [|? ? H3 _].
    assert (x = 1)%R by lra. assert (y = 0)%R by lra. assert (z = 0)%R by lra.
    congruence.
  - inversion H; subst. repeat constructor; lra.
Qed.

Lemma fail_eigenvalues (v : Point) :
  eigenvalues fail_A fail_B fail_C fail_D fail_svd v
  = Ok [0; 0; 0; 0; 0]%R.
Proof.
  destruct v as [[x y] z]. unfold eigenvalues, fail_svd. cbn.
  decide_Rtests. reflexivity.
Qed.

Lemma fail_solve :
  solve 1 (fun _ => both_at_p) init_machine
  = (Ok tt,
     mkMachine (mkSDP [node_p; node_p] [] [] [] [] 1%Z true true 1%Z 0%Z)
               (mkWorld [] [NSD; PSD])).
Proof. reflexivity. Qed.

Lemma fail_discover :
  discover fail_A fail_B fail_C fail_D fail_svd parse_one_node working_env
    (mkMachine (mkSDP [node_p; node_p] [] [] [] [] 1%Z true true 1%Z 0%Z)
               (mkWorld [] [NSD; PSD]))
  = (Ok tt,
     mkMachine
       (mkSDP [node_p; node_p] [mkPMin node_p 0 [0; 0; 0; 0; 0]%R] []
              [(node_p, [0; 0; 0; 0; 0]%R)] [] 1%Z true true 1%Z 0%Z)
       (mkWorld [] [NSD; PSD])).
Proof.
  assert (Hh : handler_or_default parse_one_node None working_env
                 (mkMachine
                    (mkSDP [node_p; node_p] [] [] [] [] 1%Z true true 1%Z 0%Z)
                    (mkWorld [] [NSD; PSD]))
               = (Ok [node_p],
                  mkMachine
                    (mkSDP [node_p; node_p] [] [] [] [] 1%Z true true 1%Z 0%Z)
                    (mkWorld [] [NSD; PSD]))) by reflexivity.
  unfold discover, gets.
  cbn [bind Monad_M self spec_nodes sym_nodes is_empty andb].
  unfold get_nodes. cbn [bind Monad_M]. rewrite Hh, for_each_cons.
  rewrite (classify_spec fail_A fail_B fail_C fail_D fail_svd node_p
             [0; 0; 0; 0; 0]%R _ (fail_eigenvalues node_p))
    by (cbn; lia).
  unfold filed, is_spectrahedral, eigenpair. rewrite fail_eigenvalues.
  cbn [snd first3_same_sign]. decide_Rtests. reflexivity.
Qed.

(** C1.  The claim fails on the code.  One trial in which the PSD and the
    NSD sub-problem are both solved at the node [(1, 0, 0)] appends two raw
    minima; [gen_nodes] then counts both for that node and divides by
    [trials = 1]: the probability reported is [2 / 1], which is above [1]. *)
Theorem probability_above_one :
  let s1 := snd (solve 1 (fun _ => both_at_p) init_machine) in
  let r := gen_nodes fail_A fail_B fail_C fail_D fail_svd parse_one_node
                     working_env s1 in
  fst r = Ok tt
  /\ trials (self (snd r)) = 1%Z
  /\ nodes (self (snd r))
     = [(node_p, (IZR 2 / IZR 1)%R, [0; 0; 0; 0; 0]%R)]
  /\ exists nd, In nd (nodes (self (snd r))) /\ (1 < rn_prob nd)%R.
Proof.
  cbv zeta. rewrite fail_solve. cbn [snd].
  assert (Hw : within (default_tolerance
                       * max_norm [mkPMin node_p 0 [0; 0; 0; 0; 0]%R])
                      node_p node_p = true).
  { apply within_self. unfold default_tolerance, max_norm. cbn [map pm_point fold_left].
    pose proof (norm_nonneg node_p). nra. }
  assert (Hg : gen_nodes fail_A fail_B fail_C fail_D fail_svd parse_one_node
                 working_env
                 (mkMachine
                    (mkSDP [node_p; node_p] [] [] [] [] 1%Z true true 1%Z 0%Z)
                    (mkWorld [] [NSD; PSD]))
               = (Ok tt,
                  mkMachine
                    (mkSDP [] [mkPMin node_p 2 [0; 0; 0; 0; 0]%R]
                       [(node_p, (IZR 2 / IZR 1)%R, [0; 0; 0; 0; 0]%R)]
                       [(node_p, [0; 0; 0; 0; 0]%R)] [] 1%Z true true 1%Z 0%Z)
                    (mkWorld [] [NSD; PSD]))).
  { unfold gen_nodes, refresh, gets. cbn [bind Monad_M self mins sym_nodes
      is_empty negb orb].
    rewrite process_unfold, fail_discover.
    cbn [self world pmins mins map]. unfold matched at 1.
    cbn [pm_point pm_count pm_eigs filter]. rewrite Hw.
    rewrite build_nodes_spec. reflexivity. }
  rewrite Hg. cbn [fst snd self trials nodes].
  repeat split.
  exists (node_p, (IZR 2 / IZR 1)%R, [0; 0; 0; 0; 0]%R).
  split; [now left|]. unfold rn_prob. cbn [fst snd]. lra.
Qed.

(** * Further properties of the code *)

(** *** [solve]: exceptions, [trials] and the direction counters *)

Lemma solve_trial_trials (t : Trial) (ps : option Status) (s : Machine) :
  trials (self (snd (solve_trial t ps s))) = trials (self s).
Proof.
  split_state s; split_trial t; destruct ps as [[| | |]|]; unfold_solve;
    reflexivity.
Qed.

Lemma solve_trial_raises (t : Trial) (ps : option Status) (s s' : Machine)
    (e : exn) :
  solve_trial t ps s = (Err e, s') ->
  e = NameError "psd_status" /\ psd_spec (self s) = false /\ ps = None.
Proof.
  intros E.
  split_state s; split_trial t; destruct ps as [[| | |]|]; unfold_solve;
    inversion E; subst; repeat split; reflexivity.
Qed.

Lemma solve_trial_bound (t : Trial) (ps ps' : option Status)
    (s s' : Machine) :
  solve_trial t ps s = (Ok ps', s') ->
  ps' = None -> ps = None /\ psd_spec (self s) = false.
Proof.
  intros E H. subst ps'.
  split_state s; split_trial t; destruct ps as [[| | |]|]; unfold_solve;
    inversion E; subst; split; reflexivity.
Qed.

Lemma solve_loop_trials (ts : list Trial) :
  forall (ps : option Status) (s : Machine),
    trials (self (snd (solve_loop ts ps s))) = trials (self s).
Proof.
  induction ts as [|t ts IH]; intros ps s; [reflexivity|].
  rewrite solve_loop_cons. pose proof (solve_trial_trials t ps s) as H.
  destruct (solve_trial t ps s) as [[ps'|e] s']; cbn in *.
  - now rewrite IH.
  - exact H.
Qed.

Lemma solve_loop_raises (ts : list Trial) :
  forall (ps : option Status) (s s' : Machine) (e : exn),
    solve_loop ts ps s = (Err e, s') ->
    e = NameError "psd_status" /\ psd_spec (self s) = false /\ ps = None.
Proof.
  induction ts as [|t ts IH]; intros ps s s' e E.
  - discriminate E.
  - rewrite solve_loop_cons in E.
    destruct (solve_trial t ps s) as [[ps1|e1] s1] eqn:E1.
    + destruct (IH _ _ _ _ E) as [He [_ Hps]].
      destruct (solve_trial_bound t ps ps1 s s1 E1 Hps) as [H1 H2].
      repeat split; assumption.
    + inversion E; subst. eapply solve_trial_raises; eassumption.
Qed.

Lemma solve_cases (n : Z) (oracle : nat -> Trial) (s : Machine) :
  (fst (solve n oracle s) = Ok tt
   /\ trials (self (snd (solve n oracle s))) = (trials (self s) + n)%Z)
  \/ (fst (solve n oracle s) = Err (NameError "psd_status")
      /\ trials (self (snd (solve n oracle s))) = trials (self s)
      /\ psd_spec (self s) = false).
Proof.
  rewrite solve_unfold.
  pose proof (solve_loop_trials (map oracle (seq 0 (Z.to_nat n))) None s) as Ht.
  destruct (solve_loop (map oracle (seq 0 (Z.to_nat n))) None s)
    as [[ps|e] s'] eqn:E; cbn in *.
  - left. split; [reflexivity|]. now rewrite Ht.
  - right. destruct (solve_loop_raises _ _ _ _ _ E) as [-> [Hp _]].
    repeat split; assumption.
Qed.

(** X1.  A call to [solve] either returns normally, having added [n] to
    [trials], or raises [NameError] on [psd_status]; the second happens only
    in a call entered with [psd_spec] false, and leaves [trials] as it
    was. *)
Theorem solve_outcome (n : Z) (oracle : nat -> Trial) (s : Machine) :
  (fst (solve n oracle s) = Ok tt
   /\ trials (self (snd (solve n oracle s))) = (trials (self s) + n)%Z)
  \/ (fst (solve n oracle s) = Err (NameError "psd_status")
      /\ trials (self (snd (solve n oracle s))) = trials (self s)
      /\ psd_spec (self s) = false).
Proof.
  rewrite solve_unfold.
  pose proof (solve_loop_trials (map oracle (seq 0 (Z.to_nat n))) None s) as Ht.
  destruct (solve_loop (map oracle (seq 0 (Z.to_nat n))) None s)
    as [[ps|e] s'] eqn:E; cbn in *.
  - left. split; [reflexivity|]. now rewrite Ht.
  - right. destruct (solve_loop_raises _ _ _ _ _ E) as [-> [Hp _]].
    repeat split; assumption.
Qed.

(** X2.  A call to [solve] entered with [psd_spec] true returns normally,
    whatever the solver answers in its trials. *)
Theorem solve_returns_when_psd_up (n : Z) (oracle : nat -> Trial)
    (s : Machine) :
  psd_spec (self s) = true ->
  fst (solve n oracle s) = Ok tt.
Proof.
  intros Hp. rewrite solve_unfold.
  destruct (solve_loop (map oracle (seq 0 (Z.to_nat n))) None s)
    as [[ps|e] s'] eqn:E; [reflexivity|].
  destruct (solve_loop_raises _ _ _ _ _ E) as [_ [Hf _]]. congruence.
Qed.

(** A first call on a fresh object, with a PSD component found infeasible
    in the first of its four trials and the NSD one solved throughout. *)
Lemma solve_returns_when_psd_up_witness :
  psd_spec (self init_machine) = true
  /\ fst (solve 4 (fun _ => psd_infeasible_trial) init_machine) = Ok tt.
Proof.
  split; [reflexivity|].
  apply (solve_returns_when_psd_up 4 (fun _ => psd_infeasible_trial)
           init_machine).
  reflexivity.
Defined.

(** X3.  [solve(n)] with [n <= 0] runs no trial and calls the solver not
    once; it still adds [n] to [trials], so a negative [n] lowers the
    counter. *)
Theorem solve_nonpositive (n : Z) (oracle : nat -> Trial) (s : Machine) :
  (n <= 0)%Z ->
  solve n oracle s
  = (Ok tt, mkMachine (set_trials (trials (self s) + n) (self s)) (world s)).
Proof.
  intros Hn. rewrite solve_unfold.
  replace (Z.to_nat n) with 0%nat by lia. reflexivity.
Qed.

Lemma solve_nonpositive_witness :
  (-3 <= 0)%Z
  /\ solve (-3) (fun _ => both_at_p) init_machine
     = (Ok tt,
        mkMachine (set_trials (trials (self init_machine) + -3)
                              (self init_machine))
                  (world init_machine))
  /\ trials (self (snd (solve (-3) (fun _ => both_at_p) init_machine)))
     = (-3)%Z.
Proof.
  split; [lia|]. split.
  - apply (solve_nonpositive (-3) (fun _ => both_at_p) init_machine). lia.
  - reflexivity.
Defined.

(** X4.  In a trial of [solve] reached after any number of earlier trials of
    the same call, [fully_unbounded_directions] goes up by one exactly when
    both sub-problems are run in that trial and both report [UNBOUNDED],
    and is unchanged otherwise. *)
Theorem fully_unbounded_same_trial (earlier : list Trial) (t : Trial)
    (s s1 : Machine) (ps : option Status) :
  solve_loop earlier None s = (Ok ps, s1) ->
  fully_unbounded_directions (self (snd (solve_trial t ps s1)))
  = (fully_unbounded_directions (self s1)
     + (if both_unbounded_here s1 t then 1 else 0))%Z.
Proof.
  intros E.
  assert (H : stale_ok ps s1).
  { eapply solve_loop_stale; [|exact E]. intros _. left. reflexivity. }
  unfold stale_ok in H. clear E. unfold both_unbounded_here.
  split_state s1; split_trial t; destruct ps as [[| | |]|]; unfold_solve;
    try ring; destruct H as [H|H]; try reflexivity; discriminate.
Qed.

Lemma fully_unbounded_same_trial_witness :
  let t := mkTrial (no_answer UNBOUNDED) (no_answer UNBOUNDED) in
  let s1 := snd (solve_loop [unknown_trial] None init_machine) in
  solve_loop [unknown_trial] None init_machine = (Ok (Some UNKNOWN), s1)
  /\ fully_unbounded_directions (self (snd (solve_trial t (Some UNKNOWN) s1)))
     = (fully_unbounded_directions (self s1)
        + (if both_unbounded_here s1 t then 1 else 0))%Z
  /\ both_unbounded_here s1 t = true.
Proof.
  cbv zeta. split; [reflexivity|]. split; [|reflexivity].
  apply (fully_unbounded_same_trial [unknown_trial]
           (mkTrial (no_answer UNBOUNDED) (no_answer UNBOUNDED))
           init_machine).
  reflexivity.
Defined.

Lemma solve_trial_frozen (c : Component) (t : Trial) (ps : option Status)
    (s : Machine) :
  latch c (self s) = false ->
  stale_ok ps s ->
  fully_bounded_directions (self (snd (solve_trial t ps s)))
  = fully_bounded_directions (self s)
  /\ fully_unbounded_directions (self (snd (solve_trial t ps s)))
     = fully_unbounded_directions (self s).
Proof.
  unfold stale_ok. intros H Hs.
  split_state s; split_trial t; destruct c, ps as [[| | |]|]; unfold_solve;
    try discriminate; try (split; reflexivity);
    destruct Hs as [Hs|Hs]; try reflexivity; discriminate.
Qed.

Lemma solve_loop_frozen (c : Component) (ts : list Trial) :
  forall (ps : option Status) (s : Machine),
    latch c (self s) = false ->
    stale_ok ps s ->
    fully_bounded_directions (self (snd (solve_loop ts ps s)))
    = fully_bounded_directions (self s)
    /\ fully_unbounded_directions (self (snd (solve_loop ts ps s)))
       = fully_unbounded_directions (self s).
Proof.
  induction ts as [|t ts IH]; intros ps s H Hs; [split; reflexivity|].
  rewrite solve_loop_cons.
  destruct (solve_trial_frozen c t ps s H Hs) as [H1 H2].
  destruct (solve_trial_latch c t ps s H) as [H3 _].
  destruct (solve_trial t ps s) as [[ps'|e] s'] eqn:E; cbn in *.
  - destruct (IH ps' s' H3 (solve_trial_stale t ps ps' s s' Hs E)) as [H4 H5].
    split; congruence.
  - split; assumption.
Qed.

Lemma solve_frozen (c : Component) (n : Z) (oracle : nat -> Trial)
    (s : Machine) :
  latch c (self s) = false ->
  fully_bounded_directions (self (snd (solve n oracle s)))
  = fully_bounded_directions (self s)
  /\ fully_unbounded_directions (self (snd (solve n oracle s)))
     = fully_unbounded_directions (self s).
Proof.
  intros H. rewrite solve_unfold.
  destruct (solve_loop_frozen c (map oracle (seq 0 (Z.to_nat n))) None s H)
    as [H1 H2].
  { intros _. now left. }
  destruct (solve_loop _ None s) as [[ps'|e] s']; cbn in *; split; assumption.
Qed.

(** X5.  Once one of the two latches is down, no call to [solve] changes
    [fully_bounded_directions] or [fully_unbounded_directions] any more. *)
Theorem counters_frozen_when_latched (c : Component)
    (calls : list (Z * (nat -> Trial))) :
  forall s : Machine,
    latch c (self s) = false ->
    fully_bounded_directions (self (run_solves calls s))
    = fully_bounded_directions (self s)
    /\ fully_unbounded_directions (self (run_solves calls s))
       = fully_unbounded_directions (self s).
Proof.
  induction calls as [|[n oracle] calls IH]; intros s H.
  - split; reflexivity.
  - change (run_solves ((n, oracle) :: calls) s)
      with (run_solves calls (snd (solve n oracle s))).
    destruct (solve_frozen c n oracle s H) as [H1 H2].
    destruct (solve_latch c n oracle s H) as [H3 _].
    destruct (IH _ H3) as [H4 H5]. split; congruence.
Qed.

(** The NSD latch lowered by a first call, then calls in which the solver
    reports both sub-problems solved. *)
Lemma counters_frozen_when_latched_witness :
  let s := snd (solve 1 (fun _ => mkTrial (solved_at origin)
                                          (no_answer INFEASIBLE))
                      init_machine) in
  let calls := [(5%Z, fun _ : nat => both_at_p);
                (2%Z, fun _ : nat => both_at_p)] in
  latch NSD (self s) = false
  /\ fully_bounded_directions (self (run_solves calls s))
     = fully_bounded_directions (self s)
  /\ fully_unbounded_directions (self (run_solves calls s))
     = fully_unbounded_directions (self s).
Proof.
  cbv zeta. split; [reflexivity|].
  apply (counters_frozen_when_latched NSD). reflexivity.
Defined.

Lemma solve_trial_counters (t : Trial) (ps : option Status) (s : Machine) :
  let s' := snd (solve_trial t ps s) in
  (fully_bounded_directions (self s)
   <= fully_bounded_directions (self s'))%Z
  /\ (fully_unbounded_directions (self s)
      <= fully_unbounded_directions (self s'))%Z
  /\ (fully_bounded_directions (self s') + fully_unbounded_directions (self s')
      <= fully_bounded_directions (self s)
         + fully_unbounded_directions (self s) + 1)%Z.
Proof.
  split_state s; split_trial t; destruct ps as [[| | |]|]; unfold_solve; lia.
Qed.

Lemma solve_loop_counters (ts : list Trial) :
  forall (ps : option Status) (s : Machine),
    let s' := snd (solve_loop ts ps s) in
    (fully_bounded_directions (self s)
     <= fully_bounded_directions (self s'))%Z
    /\ (fully_unbounded_directions (self s)
        <= fully_unbounded_directions (self s'))%Z
    /\ (fully_bounded_directions (self s')
        + fully_unbounded_directions (self s')
        <= fully_bounded_directions (self s)
           + fully_unbounded_directions (self s)
           + Z.of_nat (List.length ts))%Z.
Proof.
  induction ts as [|t ts IH]; intros ps s; cbv zeta.
  - cbn. lia.
  - rewrite solve_loop_cons.
    pose proof (solve_trial_counters t ps s) as H. cbv zeta in H.
    destruct (solve_trial t ps s) as [[ps'|e] s']; cbn [snd] in *.
    + pose proof (IH ps' s') as H'. cbv zeta in H'.
      cbn [List.length]. lia.
    + cbn [List.length]. lia.
Qed.

Lemma solve_counters_ok (n : Z) (oracle : nat -> Trial) (s : Machine) :
  (0 <= n)%Z ->
  counters_ok (self s) ->
  counters_ok (self (snd (solve n oracle s))).
Proof.
  unfold counters_ok. intros Hn [H1 [H2 H3]].
  destruct (solve_cases n oracle s) as [[_ Ht]|[_ [Ht Hp]]].
  - rewrite Ht. rewrite solve_unfold.
    pose proof (solve_loop_counters (map oracle (seq 0 (Z.to_nat n))) None s)
      as H. cbv zeta in H. rewrite length_map, length_seq in H.
    destruct (solve_loop (map oracle (seq 0 (Z.to_nat n))) None s)
      as [[ps|e] s']; cbn in *; lia.
  - destruct (solve_frozen PSD n oracle s Hp) as [Hb Hu].
    rewrite Ht, Hb, Hu. lia.
Qed.

(** X6.  Over any sequence of calls [solve(n)] with [n >= 0], raising or
    not, the two direction counters stay non-negative and their sum stays
    at most [trials]: no trial is counted both as fully bounded and as
    fully unbounded. *)
Theorem direction_counters_within_trials
    (calls : list (Z * (nat -> Trial))) :
  forall s : Machine,
    Forall (fun c => (0 <= fst c)%Z) calls ->
    counters_ok (self s) ->
    counters_ok (self (run_solves calls s)).
Proof.
  induction calls as [|[n oracle] calls IH]; intros s Hn H.
  - exact H.
  - change (run_solves ((n, oracle) :: calls) s)
      with (run_solves calls (snd (solve n oracle s))).
    inversion Hn as [|? ? Hn0 Hn']; subst. cbn in Hn0.
    apply IH; [exact Hn'|]. now apply solve_counters_ok.
Qed.

Lemma direction_counters_within_trials_witness :
  let calls := [(2%Z, fun _ : nat => both_at_p);
                (1%Z, fun _ : nat => psd_infeasible_trial);
                (3%Z, fun _ : nat => both_at_p)] in
  counters_ok (self init_machine)
  /\ counters_ok (self (run_solves calls init_machine)).
Proof.
  cbv zeta.
  assert (H0 : counters_ok (self init_machine)).
  { unfold counters_ok. cbn. lia. }
  split; [exact H0|].
  apply direction_counters_within_trials; [|exact H0].
  repeat constructor; cbn; lia.
Defined.

Lemma solve_trial_mins (t : Trial) (ps : option Status) (s : Machine) :
  exists new,
    mins (self (snd (solve_trial t ps s))) = mins (self s) ++ new
    /\ (List.length new <= 2)%nat.
Proof.
  split_state s; split_trial t; destruct ps as [[| | |]|]; unfold_solve;
    rewrite <- ?app_assoc;
    first [ eexists; split; [reflexivity | cbn; lia]
          | exists []; split; [now rewrite app_nil_r | cbn; lia] ].
Qed.

Lemma solve_loop_mins (ts : list Trial) :
  forall (ps : option Status) (s : Machine),
    exists new,
      mins (self (snd (solve_loop ts ps s))) = mins (self s) ++ new
      /\ (List.length new <= 2 * List.length ts)%nat.
Proof.
  induction ts as [|t ts IH]; intros ps s.
  - exists []. split; [now rewrite app_nil_r | cbn; lia].
  - rewrite solve_loop_cons.
    destruct (solve_trial_mins t ps s) as [new1 [H1 L1]].
    destruct (solve_trial t ps s) as [[ps'|e] s']; cbn [snd] in *.
    + destruct (IH ps' s') as [new2 [H2 L2]].
      exists (new1 ++ new2). rewrite H2, H1, app_assoc.
      split; [reflexivity|]. rewrite length_app. cbn [List.length]. lia.
    + exists new1. split; [exact H1 | cbn [List.length]; lia].
Qed.

(** X7.  A call [solve(n)] only appends to [mins]: the minima already there
    stay in place, and at most two are added per trial. *)
Theorem solve_appends_minima (n : Z) (oracle : nat -> Trial) (s : Machine) :
  exists new,
    mins (self (snd (solve n oracle s))) = mins (self s) ++ new
    /\ (List.length new <= 2 * Z.to_nat n)%nat.
Proof.
  rewrite solve_unfold.
  destruct (solve_loop_mins (map oracle (seq 0 (Z.to_nat n))) None s)
    as [new [H L]].
  rewrite length_map, length_seq in L.
  exists new.
  destruct (solve_loop (map oracle (seq 0 (Z.to_nat n))) None s)
    as [[ps|e] s']; cbn in *; split; assumption.
Qed.

(** *** [process] and [gen_nodes] once the nodes are known *)

Lemma matched_no_mins (d : R) (pm : list PMin) :
  map (matched d []) pm = pm.
Proof.
  induction pm as [|[p c e] pm IH]; [reflexivity|].
  cbn [map]. rewrite IH. unfold matched. cbn. now rewrite Z.add_0_r.
Qed.

Lemma refresh_unfold (A B C D : Matrix)
    (svd : Matrix -> Matrix * list R * Matrix)
    (parse : string -> result (list Point)) (env : SingularEnv)
    (s : Machine) :
  refresh A B C D svd parse env s
  = if negb (is_empty (mins (self s))) || is_empty (sym_nodes (self s))
    then process A B C D svd parse default_tolerance env s
    else (Ok tt, s).
Proof.
  unfold refresh, gets. cbn [bind Monad_M].
  destruct (negb (is_empty (mins (self s))) || is_empty (sym_nodes (self s)));
    reflexivity.
Qed.

Lemma gen_nodes_unfold (A B C D : Matrix)
    (svd : Matrix -> Matrix * list R * Matrix)
    (parse : string -> result (list Point)) (env : SingularEnv)
    (s : Machine) :
  gen_nodes A B C D svd parse env s
  = match refresh A B C D svd parse env s with
    | (Ok _, s1) =>
        (Ok tt,
         mkMachine (set_nodes (ranking (trials (self s1)) (pmins (self s1)))
                              (self s1))
                   (world s1))
    | (Err e, s1) => (Err e, s1)
    end.
Proof.
  unfold gen_nodes. cbn [bind Monad_M].
  destruct (refresh A B C D svd parse env s) as [[[]|e] s1]; [|reflexivity].
  apply build_nodes_spec.
Qed.

Section KnownNodes.

Variables A B C D : Matrix.
Variable svd : Matrix -> Matrix * list R * Matrix.
Variable parse_singular_output : string -> result (list Point).

Lemma discover_known (env : SingularEnv) (s : Machine) :
  nodes_known (self s) ->
  discover A B C D svd parse_singular_output env s = (Ok tt, s).
Proof.
  unfold nodes_known, discover, gets. cbn [bind Monad_M].
  intros [H|H].
  - destruct (spec_nodes (self s)); [contradiction | reflexivity].
  - destruct (sym_nodes (self s)); [contradiction|].
    now rewrite andb_false_r.
Qed.

Lemma process_known (tolerance : R) (env : SingularEnv) (s : Machine) :
  nodes_known (self s) ->
  process A B C D svd parse_singular_output tolerance env s
  = (Ok tt,
     mkMachine
       (set_mins []
          (set_pmins (map (matched (tolerance * max_norm (pmins (self s)))
                                   (mins (self s)))
                          (pmins (self s)))
                     (self s)))
       (world s)).
Proof.
  intros H. rewrite process_unfold, (discover_known env s H). reflexivity.
Qed.

(** A pass of [process] on an object with known nodes and no raw minimum
    changes nothing. *)
Lemma process_nothing_to_do (tolerance : R) (env : SingularEnv)
    (s : Machine) :
  nodes_known (self s) ->
  mins (self s) = [] ->
  process A B C D svd parse_singular_output tolerance env s = (Ok tt, s).
Proof.
  intros H Hm. rewrite (process_known tolerance env s H), Hm, matched_no_mins.
  destruct s as [[ms pm nd sp sy t p n fb fu] w]. cbn in *. now subst ms.
Qed.

Lemma process_empties_mins (tolerance : R) (env : SingularEnv)
    (s s1 : Machine) :
  process A B C D svd parse_singular_output tolerance env s = (Ok tt, s1) ->
  mins (self s1) = [].
Proof.
  rewrite process_unfold.
  destruct (discover A B C D svd parse_singular_output env s)
    as [[[]|e] s0]; intros E; inversion E; reflexivity.
Qed.

(** X8.  The matching pass consumes the raw minima: when [process] has
    returned and some node is known, a second [process], with any tolerance,
    returns normally and leaves the object and the disk exactly as they
    were, so that no minimum is counted twice. *)
Theorem process_twice (tolerance tolerance' : R) (env env' : SingularEnv)
    (s s1 : Machine) :
  process A B C D svd parse_singular_output tolerance env s = (Ok tt, s1) ->
  nodes_known (self s1) ->
  process A B C D svd parse_singular_output tolerance' env' s1 = (Ok tt, s1).
Proof.
  intros E Hk. apply process_nothing_to_do; [exact Hk|].
  eapply process_empties_mins; eassumption.
Qed.

Lemma refresh_empties_mins (env : SingularEnv) (s s1 : Machine) :
  refresh A B C D svd parse_singular_output env s = (Ok tt, s1) ->
  mins (self s1) = [].
Proof.
  rewrite refresh_unfold.
  destruct (mins (self s)) as [|m ms] eqn:Em; cbn [is_empty negb orb].
  - destruct (is_empty (sym_nodes (self s))).
    + apply process_empties_mins.
    + intros E. inversion E; subst. exact Em.
  - apply process_empties_mins.
Qed.

Lemma refresh_nothing_to_do (env : SingularEnv) (s : Machine) :
  nodes_known (self s) ->
  mins (self s) = [] ->
  refresh A B C D svd parse_singular_output env s = (Ok tt, s).
Proof.
  intros Hk Hm. rewrite refresh_unfold.
  destruct (negb (is_empty (mins (self s))) || is_empty (sym_nodes (self s)));
    [|reflexivity].
  now apply process_nothing_to_do.
Qed.

(** X9.  [gen_nodes] is idempotent once some node is known: called again
    right after it has returned, with no sampling in between, it returns
    normally and leaves the object, its ranking included, and the disk
    exactly as they were. *)
Theorem gen_nodes_twice (env env' : SingularEnv) (s s1 : Machine) :
  gen_nodes A B C D svd parse_singular_output env s = (Ok tt, s1) ->
  nodes_known (self s1) ->
  gen_nodes A B C D svd parse_singular_output env' s1 = (Ok tt, s1).
Proof.
  rewrite gen_nodes_unfold.
  destruct (refresh A B C D svd parse_singular_output env s)
    as [[[]|e] s0] eqn:Er; [|discriminate].
  pose proof (refresh_empties_mins env s s0 Er) as Hm.
  intros E Hk. inversion E; subst s1. clear E.
  rewrite gen_nodes_unfold, refresh_nothing_to_do.
  - destruct s0 as [[ms pm nd sp sy t p n fb fu] w]. reflexivity.
  - destruct s0 as [[ms pm nd sp sy t p n fb fu] w]. exact Hk.
  - destruct s0 as [[ms pm nd sp sy t p n fb fu] w]. exact Hm.
Qed.

(** X10.  [pmins] is built only by the discovery step inside [process].  On
    an object whose nodes are already known while [pmins] is empty, as after
    a direct call of [get_nodes], [gen_nodes] returns normally with [pmins]
    still empty and an empty ranking, and the raw minima are dropped. *)
Theorem gen_nodes_without_pmins (env : SingularEnv) (s : Machine) :
  nodes_known (self s) ->
  pmins (self s) = [] ->
  gen_nodes A B C D svd parse_singular_output env s
  = (Ok tt, mkMachine (set_nodes [] (set_mins [] (self s))) (world s)).
Proof.
  intros Hk Hp. rewrite gen_nodes_unfold, refresh_unfold.
  destruct (negb (is_empty (mins (self s))) || is_empty (sym_nodes (self s)))
    eqn:Eb.
  - rewrite (process_known default_tolerance env s Hk), Hp.
    destruct s as [[ms pm nd sp sy t p n fb fu] w]. cbn in *. subst pm.
    unfold ranking. destruct (t =? 0)%Z; reflexivity.
  - apply orb_false_elim in Eb. destruct Eb as [Eb _].
    destruct s as [[ms pm nd sp sy t p n fb fu] w]. cbn in *. subst pm.
    destruct ms; [|discriminate].
    unfold ranking. destruct (t =? 0)%Z; reflexivity.
Qed.

End KnownNodes.

Lemma process_twice_witness :
  exists s1,
    process zero3 zero3 zero3 sample_D sample_svd parse_one_node 1
            working_env boundary_machine = (Ok tt, s1)
    /\ nodes_known (self s1)
    /\ process zero3 zero3 zero3 sample_D sample_svd parse_one_node (1 / 2)
               failing_env s1 = (Ok tt, s1).
Proof.
  assert (Hk : nodes_known (self boundary_machine)) by (left; discriminate).
  eexists. split; [apply (process_known _ _ _ _ _ _ _ _ _ Hk)|].
  split; [left; discriminate|].
  apply (process_twice zero3 zero3 zero3 sample_D sample_svd parse_one_node
           1 (1 / 2) working_env failing_env boundary_machine).
  - apply (process_known _ _ _ _ _ _ _ _ _ Hk).
  - left. discriminate.
Defined.

Lemma gen_nodes_twice_witness :
  exists s1,
    gen_nodes zero3 zero3 zero3 sample_D sample_svd parse_one_node
              working_env discovered_machine = (Ok tt, s1)
    /\ nodes_known (self s1)
    /\ gen_nodes zero3 zero3 zero3 sample_D sample_svd parse_one_node
                 failing_env s1 = (Ok tt, s1).
Proof.
  assert (E : gen_nodes zero3 zero3 zero3 sample_D sample_svd parse_one_node
                working_env discovered_machine
              = (Ok tt,
                 mkMachine (set_nodes [(node_q, 0%R, [0; 0; 0]%R)]
                                      (self discovered_machine))
                           (world discovered_machine))) by reflexivity.
  eexists. split; [exact E|]. split; [left; discriminate|].
  apply (gen_nodes_twice zero3 zero3 zero3 sample_D sample_svd parse_one_node
           working_env failing_env discovered_machine).
  - exact E.
  - left. discriminate.
Defined.

Lemma gen_nodes_without_pmins_witness :
  nodes_known (self handler_machine)
  /\ pmins (self handler_machine) = []
  /\ gen_nodes zero3 zero3 zero3 sample_D sample_svd parse_one_node
               working_env handler_machine
     = (Ok tt,
        mkMachine (set_nodes [] (set_mins [] (self handler_machine)))
                  (world handler_machine)).
Proof.
  assert (Hk : nodes_known (self handler_machine)) by (left; discriminate).
  split; [exact Hk|]. split; [reflexivity|].
  apply (gen_nodes_without_pmins zero3 zero3 zero3 sample_D sample_svd
           parse_one_node working_env handler_machine Hk).
  reflexivity.
Defined.

(** *** The order of the ranking *)

Lemma insert_desc_perm (x : RankedNode) (l : list RankedNode) :
  Permutation (insert_desc x l) (x :: l).
Proof.
  induction l as [|y l IH]; cbn; [reflexivity|].
  destruct (Rltb (rn_prob x) (rn_prob y)).
  - rewrite IH. apply perm_swap.
  - reflexivity.
Qed.

Lemma sort_desc_perm (l : list RankedNode) : Permutation (sort_desc l) l.
Proof.
  induction l as [|x l IH]; cbn; [reflexivity|].
  rewrite insert_desc_perm. now constructor.
Qed.

Lemma insert_desc_sorted (x : RankedNode) (l : list RankedNode) :
  descending l -> descending (insert_desc x l).
Proof.
  unfold descending. induction l as [|y l IH]; intros H; cbn.
  - repeat constructor.
  - inversion H as [|? ? Hl Hy]; subst.
    destruct (Rltb (rn_prob x) (rn_prob y)) eqn:E.
    + apply Rltb_true_iff in E. constructor; [now apply IH|].
      refine (Permutation_Forall (Permutation_sym (insert_desc_perm x l)) _).
      constructor; [lra | exact Hy].
    + apply Rltb_false_iff in E. constructor; [exact H|].
      constructor; [exact E|].
      apply (Forall_impl _ (P := fun b => (rn_prob b <= rn_prob y)%R));
        [intros; lra | exact Hy].
Qed.

Lemma sort_desc_sorted (l : list RankedNode) : descending (sort_desc l).
Proof.
  induction l as [|x l IH]; cbn; [constructor|].
  now apply insert_desc_sorted.
Qed.

Lemma insert_desc_stable (p : R) (x : RankedNode) (l : list RankedNode) :
  filter (prob_is p) (insert_desc x l) = filter (prob_is p) (x :: l).
Proof.
  induction l as [|y l IH]; [reflexivity|]. cbn [insert_desc].
  destruct (Rltb (rn_prob x) (rn_prob y)) eqn:E; [|reflexivity].
  apply Rltb_true_iff in E. cbn [filter] in *. rewrite IH.
  unfold prob_is.
  destruct (Req_dec_T (rn_prob x) p), (Req_dec_T (rn_prob y) p);
    try reflexivity. lra.
Qed.

Lemma sort_desc_stable (p : R) (l : list RankedNode) :
  filter (prob_is p) (sort_desc l) = filter (prob_is p) l.
Proof.
  induction l as [|x l IH]; [reflexivity|].
  cbn [sort_desc fold_right]. rewrite insert_desc_stable.
  cbn [filter]. fold (sort_desc l). now rewrite IH.
Qed.

Section Ranking.

Variables A B C D : Matrix.
Variable svd : Matrix -> Matrix * list R * Matrix.
Variable parse_singular_output : string -> result (list Point).

(** X11.  With [trials] not zero, once the refresh step has returned (in
    state [s1]), [gen_nodes] returns normally and [nodes] holds one entry
    per element of [pmins], with probability occurrences / trials: the
    entries are a rearrangement of those of [pmins], the largest probability
    comes first, and entries of equal probability keep the order they have
    in [pmins]. *)
Theorem gen_nodes_ranking (env : SingularEnv) (s s1 : Machine) :
  trials (self s) <> 0%Z ->
  refresh A B C D svd parse_singular_output env s = (Ok tt, s1) ->
  let r := nodes (self (snd (gen_nodes A B C D svd parse_singular_output
                                        env s))) in
  let entries := map (ratio (trials (self s))) (pmins (self s1)) in
  fst (gen_nodes A B C D svd parse_singular_output env s) = Ok tt
  /\ Permutation r entries
  /\ descending r
  /\ (forall p, filter (prob_is p) r = filter (prob_is p) entries).
Proof.
  intros Ht Hr. cbv zeta.
  assert (Ht1 : trials (self s1) = trials (self s)).
  { pose proof (refresh_trials A B C D svd parse_singular_output env s) as H.
    rewrite Hr in H. exact H. }
  rewrite gen_nodes_unfold, Hr. cbn [fst snd self nodes set_nodes].
  unfold ranking. rewrite Ht1.
  destruct (Z.eqb_spec (trials (self s)) 0) as [|_]; [contradiction|].
  split; [reflexivity|]. split; [apply sort_desc_perm|].
  split; [apply sort_desc_sorted|]. intros p. apply sort_desc_stable.
Qed.

End Ranking.

(** Two trials and a node counted once: its probability is [1 / 2]. *)
Lemma gen_nodes_ranking_witness :
  let r := nodes (self (snd (gen_nodes zero3 zero3 zero3 sample_D sample_svd
                               parse_one_node working_env sampled_machine))) in
  let entries := [(node_q, (IZR 1 / IZR 2)%R, [0; 0; 0]%R)] in
  trials (self sampled_machine) <> 0%Z
  /\ fst (gen_nodes zero3 zero3 zero3 sample_D sample_svd parse_one_node
                    working_env sampled_machine) = Ok tt
  /\ Permutation r entries
  /\ descending r
  /\ (forall p, filter (prob_is p) r = filter (prob_is p) entries).
Proof.
  cbv zeta. split; [discriminate|].
  apply (gen_nodes_ranking zero3 zero3 zero3 sample_D sample_svd
           parse_one_node working_env sampled_machine sampled_machine).
  - discriminate.
  - reflexivity.
Defined.

(** *** The tally over a run *)

Lemma solve_trial_frame (t : Trial) (ps : option Status) (s : Machine) :
  pmins (self (snd (solve_trial t ps s))) = pmins (self s)
  /\ nodes (self (snd (solve_trial t ps s))) = nodes (self s).
Proof.
  split_state s; split_trial t; destruct ps as [[| | |]|]; unfold_solve;
    split; reflexivity.
Qed.

Lemma solve_loop_frame (ts : list Trial) :
  forall (ps : option Status) (s : Machine),
    pmins (self (snd (solve_loop ts ps s))) = pmins (self s)
    /\ nodes (self (snd (solve_loop ts ps s))) = nodes (self s).
Proof.
  induction ts as [|t ts IH]; intros ps s; [split; reflexivity|].
  rewrite solve_loop_cons. destruct (solve_trial_frame t ps s) as [H1 H2].
  destruct (solve_trial t ps s) as [[ps'|e] s']; cbn [snd] in *.
  - destruct (IH ps' s') as [H3 H4]. split; congruence.
  - split; assumption.
Qed.

Lemma solve_tally (n : Z) (oracle : nat -> Trial) (s s' : Machine) :
  (0 <= n)%Z ->
  tally_ok (self s) ->
  solve n oracle s = (Ok tt, s') ->
  tally_ok (self s').
Proof.
  unfold tally_ok. intros Hn [H0 [Hm [Hp Hr]]]. rewrite solve_unfold.
  destruct (solve_loop_mins (map oracle (seq 0 (Z.to_nat n))) None s)
    as [new [Hnew Hlen]].
  rewrite length_map, length_seq in Hlen.
  destruct (solve_loop_frame (map oracle (seq 0 (Z.to_nat n))) None s)
    as [Hpm Hnd].
  pose proof (solve_loop_trials (map oracle (seq 0 (Z.to_nat n))) None s) as Ht.
  destruct (solve_loop (map oracle (seq 0 (Z.to_nat n))) None s)
    as [[ps|e] s1]; [|discriminate].
  intros E. inversion E; subst s'. clear E.
  cbn [snd self mins pmins nodes trials set_trials] in *.
  rewrite Hnew, Hpm, Hnd, Ht, length_app.
  split; [lia|]. split; [lia|]. split; [|exact Hr].
  apply (Forall_impl _ (P := fun y =>
           (0 <= pm_count y)%Z
           /\ (pm_count y + Z.of_nat (List.length (mins (self s)))
               <= 2 * trials (self s))%Z)); [|exact Hp].
  intros y [Hy1 Hy2]. split; lia.
Qed.

Lemma for_each_keeps {X T : Type} (proj : SDP -> T) (body : X -> M unit)
    (l : list X) :
  (forall a s, proj (self (snd (body a s))) = proj (self s)) ->
  forall s, proj (self (snd (for_each l body s))) = proj (self s).
Proof.
  intros H. induction l as [|a l IH]; intros s; [reflexivity|].
  rewrite for_each_cons. pose proof (H a s) as Ha.
  destruct (body a s) as [[[]|e] s']; cbn [snd] in *.
  - now rewrite IH.
  - exact Ha.
Qed.

Section Tally.

Variables A B C D : Matrix.
Variable svd : Matrix -> Matrix * list R * Matrix.
Variable parse_singular_output : string -> result (list Point).

Lemma classify_keeps (vector : Point) (s : Machine) :
  tally_fields (self (snd (classify A B C D svd vector s)))
  = tally_fields (self s).
Proof.
  unfold classify, lift, modify. cbn.
  destruct (eigenvalues A B C D svd vector) as [e|]; [|reflexivity]. cbn.
  destruct (same_sign3 e) as [[|]|]; reflexivity.
Qed.

Lemma get_nodes_default_keeps (env : SingularEnv) (s : Machine) :
  tally_fields
    (self (snd (get_nodes A B C D svd parse_singular_output None env s)))
  = tally_fields (self s).
Proof.
  unfold get_nodes, handler_or_default. cbn [bind Monad_M].
  pose proof (handler_keeps_self parse_singular_output env s) as Hs.
  destruct (get_nodes_from_singular parse_singular_output env s)
    as [[vs|e] s1]; cbn [snd] in *.
  - rewrite (for_each_keeps tally_fields (classify A B C D svd) vs
               classify_keeps s1).
    now rewrite Hs.
  - now rewrite Hs.
Qed.

Lemma discover_keeps (env : SingularEnv) (s : Machine) :
  let s0 := snd (discover A B C D svd parse_singular_output env s) in
  mins (self s0) = mins (self s)
  /\ nodes (self s0) = nodes (self s)
  /\ trials (self s0) = trials (self s)
  /\ (pmins (self s0) = pmins (self s)
      \/ Forall (fun y => pm_count y = 0%Z) (pmins (self s0))).
Proof.
  cbv zeta. unfold discover, gets, modify. cbn [bind Monad_M].
  destruct (is_empty (spec_nodes (self s)) && is_empty (sym_nodes (self s))).
  - pose proof (get_nodes_default_keeps env s) as Hk.
    unfold tally_fields in Hk.
    destruct (get_nodes A B C D svd parse_singular_output None env s)
      as [[[]|e] s1]; cbn [snd self mins nodes trials pmins set_pmins] in *;
      inversion Hk as [[Hm Hp Hn Ht]].
    + repeat split; try reflexivity. right.
      apply Forall_forall. intros y Hy. apply in_map_iff in Hy.
      destruct Hy as [nd [<- _]]. reflexivity.
    + repeat split; try reflexivity. now left.
  - cbn. repeat split; try reflexivity. now left.
Qed.

Lemma process_tally (tolerance : R) (env : SingularEnv) (s s' : Machine) :
  tally_ok (self s) ->
  process A B C D svd parse_singular_output tolerance env s = (Ok tt, s') ->
  tally_ok (self s').
Proof.
  unfold tally_ok. intros [H0 [Hm [Hp Hr]]]. rewrite process_unfold.
  pose proof (discover_keeps env s) as Hd. cbv zeta in Hd.
  destruct (discover A B C D svd parse_singular_output env s)
    as [[[]|e] s0]; [|discriminate].
  cbn [snd] in Hd. destruct Hd as [Hm0 [Hn0 [Ht0 Hp0]]].
  intros E. inversion E; subst s'. clear E.
  cbn [self mins pmins nodes trials set_mins set_pmins].
  rewrite Hn0, Ht0, Hm0.
  split; [exact H0|]. split; [cbn [List.length Z.of_nat]; lia|].
  split; [|exact Hr].
  assert (Hp1 : Forall (fun y => (0 <= pm_count y)%Z
                          /\ (pm_count y + Z.of_nat (List.length (mins (self s)))
                              <= 2 * trials (self s))%Z)
                       (pmins (self s0))).
  { destruct Hp0 as [->|Hz]; [exact Hp|].
    apply (Forall_impl _ (P := fun y => pm_count y = 0%Z)); [|exact Hz].
    intros y Hy. rewrite Hy. lia. }
  apply Forall_forall. intros y' Hy'. apply in_map_iff in Hy'.
  destruct Hy' as [y [<- Hy]].
  rewrite Forall_forall in Hp1. destruct (Hp1 y Hy) as [Hy1 Hy2].
  unfold matched. cbn [pm_count List.length].
  pose proof (filter_length_le
                (within (tolerance * max_norm (pmins (self s0))) (pm_point y))
                (mins (self s))) as Hf.
  split; lia.
Qed.

Lemma ratio_within_two (t : Z) (y : PMin) :
  (0 < t)%Z -> (0 <= pm_count y)%Z -> (pm_count y <= 2 * t)%Z ->
  (0 <= rn_prob (ratio t y) <= 2)%R.
Proof.
  intros Ht H0 H2. unfold ratio, rn_prob. cbn [fst snd].
  apply IZR_lt in Ht. apply IZR_le in H0. apply IZR_le in H2.
  rewrite mult_IZR in H2.
  pose proof (Rinv_0_lt_compat _ Ht) as Hi.
  assert (Hone : (IZR t * / IZR t = 1)%R) by (apply Rinv_r; lra).
  unfold Rdiv. split; nra.
Qed.

Lemma gen_nodes_tally (env : SingularEnv) (s s' : Machine) :
  tally_ok (self s) ->
  gen_nodes A B C D svd parse_singular_output env s = (Ok tt, s') ->
  tally_ok (self s').
Proof.
  intros H. rewrite gen_nodes_unfold, refresh_unfold.
  assert (Hr : forall s1,
             (if negb (is_empty (mins (self s)))
                 || is_empty (sym_nodes (self s))
              then process A B C D svd parse_singular_output
                           default_tolerance env s
              else (Ok tt, s)) = (Ok tt, s1) ->
             tally_ok (self s1)).
  { intros s1.
    destruct (negb (is_empty (mins (self s)))
              || is_empty (sym_nodes (self s))).
    - now apply process_tally.
    - intros E. inversion E; subst. exact H. }
  destruct (if negb (is_empty (mins (self s))) || is_empty (sym_nodes (self s))
            then _ else _) as [[[]|e] s1]; [|discriminate].
  specialize (Hr s1 eq_refl). intros E. inversion E; subst s'. clear E.
  unfold tally_ok in *. destruct Hr as [H0 [Hm [Hp _]]].
  cbn [self mins pmins nodes trials set_nodes].
  split; [exact H0|]. split; [exact Hm|]. split; [exact Hp|].
  unfold ranking. destruct (Z.eqb_spec (trials (self s1)) 0) as [Hz|Hz].
  - apply Forall_forall. intros nd Hnd. apply in_map_iff in Hnd.
    destruct Hnd as [y [<- _]]. unfold zero_prob, rn_prob. cbn. lra.
  - refine (Permutation_Forall (Permutation_sym (sort_desc_perm _)) _).
    apply Forall_forall. intros nd Hnd. apply in_map_iff in Hnd.
    destruct Hnd as [y [<- Hy]]. rewrite Forall_forall in Hp.
    destruct (Hp y Hy) as [Hy1 Hy2]. apply ratio_within_two; lia.
Qed.

Lemma run_op_tally (op : Op) (s s' : Machine) :
  nonneg_solve op ->
  tally_ok (self s) ->
  run_op A B C D svd parse_singular_output op s = (Ok tt, s') ->
  tally_ok (self s').
Proof.
  destruct op as [n oracle|env|tolerance env|env]; cbn [run_op nonneg_solve];
    intros Hn H E.
  - eapply solve_tally; eassumption.
  - pose proof (get_nodes_default_keeps env s) as Hk. rewrite E in Hk.
    unfold tally_fields in Hk. cbn [snd] in Hk.
    inversion Hk as [[Hm Hp Hr Ht]].
    unfold tally_ok. now rewrite Hm, Hp, Hr, Ht.
  - eapply process_tally; eassumption.
  - eapply gen_nodes_tally; eassumption.
Qed.

Lemma run_ops_tally (ops : list Op) :
  forall s s' : Machine,
    Forall nonneg_solve ops ->
    tally_ok (self s) ->
    run_ops A B C D svd parse_singular_output ops s = (Ok tt, s') ->
    tally_ok (self s').
Proof.
  unfold run_ops. induction ops as [|op ops IH]; intros s s' Hn H E.
  - inversion E; subst. exact H.
  - rewrite for_each_cons in E. inversion Hn as [|? ? Hop Hops]; subst.
    destruct (run_op A B C D svd parse_singular_output op s)
      as [[[]|e] s1] eqn:E1; [|discriminate].
    apply (IH s1 s' Hops); [|exact E].
    eapply run_op_tally; eassumption.
Qed.

(** X12.  On a fresh object, after any script of calls to [solve] (each
    with [n >= 0]), [get_nodes], [process] and [gen_nodes] that runs to its
    end without an exception, every probability in [nodes] lies between 0
    and 2, and every occurrence count in [pmins] between 0 and twice
    [trials]: a node can be credited with both minima of a trial, and with
    no more. *)
Theorem probabilities_within_two (ops : list Op) (s' : Machine) :
  Forall nonneg_solve ops ->
  run_ops A B C D svd parse_singular_output ops init_machine = (Ok tt, s') ->
  Forall (fun nd => (0 <= rn_prob nd <= 2)%R) (nodes (self s'))
  /\ Forall (fun y => (0 <= pm_count y <= 2 * trials (self s'))%Z)
            (pmins (self s')).
Proof.
  intros Hn E.
  assert (H0 : tally_ok (self init_machine)).
  { unfold tally_ok. cbn. repeat split; try lia; constructor. }
  destruct (run_ops_tally ops init_machine s' Hn H0 E) as [_ [_ [Hp Hr]]].
  split; [exact Hr|].
  apply (Forall_impl _ (P := fun y =>
           (0 <= pm_count y)%Z
           /\ (pm_count y + Z.of_nat (List.length (mins (self s')))
               <= 2 * trials (self s'))%Z)); [|exact Hp].
  intros y [Hy1 Hy2]. lia.
Qed.

End Tally.

Lemma fail_gen_nodes :
  gen_nodes fail_A fail_B fail_C fail_D fail_svd parse_one_node working_env
    (mkMachine (mkSDP [node_p; node_p] [] [] [] [] 1%Z true true 1%Z 0%Z)
               (mkWorld [] [NSD; PSD]))
  = (Ok tt,
     mkMachine
       (mkSDP [] [mkPMin node_p 2 [0; 0; 0; 0; 0]%R]
              [(node_p, (IZR 2 / IZR 1)%R, [0; 0; 0; 0; 0]%R)]
              [(node_p, [0; 0; 0; 0; 0]%R)] [] 1%Z true true 1%Z 0%Z)
       (mkWorld [] [NSD; PSD])).
Proof.
  assert (Hw : within (default_tolerance
                       * max_norm [mkPMin node_p 0 [0; 0; 0; 0; 0]%R])
                      node_p node_p = true).
  { apply within_self. unfold default_tolerance, max_norm.
    cbn [map pm_point fold_left].
    pose proof (norm_nonneg node_p). nra. }
  rewrite gen_nodes_unfold, refresh_unfold.
  cbn [self mins is_empty negb orb].
  rewrite process_unfold, fail_discover.
  cbn [self world pmins mins map]. unfold matched.
  cbn [pm_point pm_count pm_eigs filter]. rewrite !Hw. reflexivity.
Qed.

(** The bound is reached: one trial whose two minima both fall on the node
    gives it the probability [2]. *)
Lemma probabilities_within_two_witness :
  let ops := [OpSolve 1 (fun _ => both_at_p); OpGenNodes working_env] in
  exists s',
    run_ops fail_A fail_B fail_C fail_D fail_svd parse_one_node ops
            init_machine = (Ok tt, s')
    /\ nodes (self s') = [(node_p, (IZR 2 / IZR 1)%R, [0; 0; 0; 0; 0]%R)]
    /\ Forall (fun nd => (0 <= rn_prob nd <= 2)%R) (nodes (self s'))
    /\ Forall (fun y => (0 <= pm_count y <= 2 * trials (self s'))%Z)
              (pmins (self s')).
Proof.
  cbv zeta.
  assert (E : run_ops fail_A fail_B fail_C fail_D fail_svd parse_one_node
                [OpSolve 1 (fun _ => both_at_p); OpGenNodes working_env]
                init_machine
              = (Ok tt,
                 mkMachine
                   (mkSDP [] [mkPMin node_p 2 [0; 0; 0; 0; 0]%R]
                      [(node_p, (IZR 2 / IZR 1)%R, [0; 0; 0; 0; 0]%R)]
                      [(node_p, [0; 0; 0; 0; 0]%R)] [] 1%Z true true 1%Z 0%Z)
                   (mkWorld [] [NSD; PSD]))).
  { unfold run_ops. rewrite for_each_cons. cbn [run_op].
    rewrite fail_solve, for_each_cons. cbn [run_op].
    rewrite fail_gen_nodes. reflexivity. }
  eexists. split; [exact E|]. split; [reflexivity|].
  apply (probabilities_within_two fail_A fail_B fail_C fail_D fail_svd
           parse_one_node
           [OpSolve 1 (fun _ => both_at_p); OpGenNodes working_env]).
  - repeat constructor. cbn. lia.
  - exact E.
Defined.

(** *** [get_nodes]: short eigenvalue lists and repeated calls *)

Ltac Rtests_to_props :=
  repeat match goal with
  | H : Rleb _ _ = true |- _ => apply Rleb_true_iff in H
  | H : Rleb _ _ = false |- _ => apply Rleb_false_iff in H
  | H : Rltb _ _ = true |- _ => apply Rltb_true_iff in H
  | H : Rltb _ _ = false |- _ => apply Rltb_false_iff in H
  end.

Lemma same_sign3_short (e : list R) :
  (List.length e < 3)%nat ->
  same_sign3 e
  = match e with
    | [a; b] => if Rltb (a * b) 0 then Ok false else Err IndexError
    | _ => Err IndexError
    end.
Proof.
  destruct e as [|a [|b [|c l]]]; cbn [List.length]; intros H; try lia.
  - reflexivity.
  - unfold same_sign3, ge0, le0, index. cbn.
    destruct (Rleb 0 a) eqn:E1; [reflexivity|]. cbn.
    destruct (Rleb a 0) eqn:E2; [reflexivity|].
    Rtests_to_props. lra.
  - unfold same_sign3, ge0, le0, index. cbn.
    destruct (Rleb 0 a) eqn:E1, (Rleb 0 b) eqn:E2,
      (Rleb a 0) eqn:E3, (Rleb b 0) eqn:E4, (Rltb (a * b) 0) eqn:E5;
      cbn; try reflexivity; Rtests_to_props; nra.
Qed.

Section ShortEigenvalues.

Variables A B C D : Matrix.
Variable svd : Matrix -> Matrix * list R * Matrix.

(** X13.  A candidate with fewer than three eigenvalues: with exactly two
    eigenvalues of strictly opposite signs the tests of [get_nodes] never
    reach [e[2]] and the point is filed as a symmetroid node; in every other
    case the classification raises [IndexError] and files nothing. *)
Theorem classify_short (vector : Point) (e : list R) (s : Machine) :
  eigenvalues A B C D svd vector = Ok e ->
  (List.length e < 3)%nat ->
  classify A B C D svd vector s
  = match e with
    | [a; b] =>
        if Rltb (a * b) 0
        then (Ok tt,
              mkMachine (set_sym_nodes (sym_nodes (self s) ++ [(vector, e)])
                                       (self s))
                        (world s))
        else (Err IndexError, s)
    | _ => (Err IndexError, s)
    end.
Proof.
  intros He Hl. unfold classify, lift, modify. cbn [bind Monad_M].
  rewrite He. cbn [bind Monad_M]. rewrite (same_sign3_short e Hl).
  destruct e as [|a [|b [|c l]]]; try reflexivity.
  destruct (Rltb (a * b) 0); reflexivity.
Qed.

End ShortEigenvalues.

Lemma sample_eigenvalues2 (v : Point) :
  eigenvalues zero2 zero2 zero2 sample_D2 sample_svd2 v = Ok [1; 1 * -1]%R.
Proof.
  destruct v as [[x y] z]. unfold eigenvalues, sample_svd2. cbn. decide_Rtests. cbn.
  decide_Rtests. reflexivity.
Qed.

(** The 2 x 2 pencil at the origin: eigenvalues [1] and [-1], a symmetroid
    node. *)
Lemma classify_short_witness :
  eigenvalues zero2 zero2 zero2 sample_D2 sample_svd2 origin
  = Ok [1; 1 * -1]%R
  /\ classify zero2 zero2 zero2 sample_D2 sample_svd2 origin init_machine
     = (Ok tt,
        mkMachine (set_sym_nodes [(origin, [1; 1 * -1]%R)] init)
                  (mkWorld [] [])).
Proof.
  split; [apply sample_eigenvalues2|].
  rewrite (classify_short zero2 zero2 zero2 sample_D2 sample_svd2 origin
             [1; 1 * -1]%R init_machine (sample_eigenvalues2 origin))
    by (cbn; lia).
  replace (Rltb (1 * (1 * -1)) 0) with true
    by (symmetry; apply Rltb_true_iff; lra).
  reflexivity.
Defined.

Section RepeatedDiscovery.

Variables A B C D : Matrix.
Variable svd : Matrix -> Matrix * list R * Matrix.
Variable parse_singular_output : string -> result (list Point).

(** X14.  [get_nodes] only appends and does not look at what is already
    stored: called twice with a handler that returns the same candidates,
    it files every candidate twice, after the nodes that were there. *)
Theorem get_nodes_no_dedup (vectors : list Point) (env env' : SingularEnv)
    (s : Machine) :
  (forall v, In v vectors ->
             exists e, eigenvalues A B C D svd v = Ok e
                       /\ (3 <= List.length e)%nat) ->
  let handler := Some (ret vectors : M (list Point)) in
  let found := map (eigenpair A B C D svd) vectors in
  let to_spec := filter is_spectrahedral found in
  let to_sym := filter (fun nd => negb (is_spectrahedral nd)) found in
  exists s1 s2,
    get_nodes A B C D svd parse_singular_output handler env s = (Ok tt, s1)
    /\ get_nodes A B C D svd parse_singular_output handler env' s1
       = (Ok tt, s2)
    /\ spec_nodes (self s2) = spec_nodes (self s) ++ to_spec ++ to_spec
    /\ sym_nodes (self s2) = sym_nodes (self s) ++ to_sym ++ to_sym.
Proof.
  intros H. cbv zeta.
  destruct (for_each_classify A B C D svd vectors s H)
    as [s1 [E1 [_ [Hsp1 [Hsy1 _]]]]].
  destruct (for_each_classify A B C D svd vectors s1 H)
    as [s2 [E2 [_ [Hsp2 [Hsy2 _]]]]].
  exists s1, s2. split; [exact E1|]. split; [exact E2|].
  rewrite Hsp2, Hsy2, Hsp1, Hsy1, <- !app_assoc. split; reflexivity.
Qed.

End RepeatedDiscovery.

Lemma sample_eigenvalues_id (v : Point) :
  eigenvalues zero3 zero3 zero3 (diag [1; 1; 1]%R) sample_svd_id v
  = Ok [1; 1; 1]%R.
Proof.
  destruct v as [[x y] z]. unfold eigenvalues, sample_svd_id. cbn. decide_Rtests. reflexivity.
Qed.

Lemma get_nodes_no_dedup_witness :
  let handler := Some (ret [origin] : M (list Point)) in
  exists s1 s2,
    get_nodes zero3 zero3 zero3 (diag [1; 1; 1]%R) sample_svd_id
              parse_one_node handler working_env init_machine = (Ok tt, s1)
    /\ get_nodes zero3 zero3 zero3 (diag [1; 1; 1]%R) sample_svd_id
                 parse_one_node handler failing_env s1 = (Ok tt, s2)
    /\ spec_nodes (self s2)
       = [(origin, [1; 1; 1]%R); (origin, [1; 1; 1]%R)]
    /\ sym_nodes (self s2) = [].
Proof.
  cbv zeta.
  destruct (get_nodes_no_dedup zero3 zero3 zero3 (diag [1; 1; 1]%R)
              sample_svd_id parse_one_node [origin] working_env failing_env
              init_machine)
    as [s1 [s2 [E1 [E2 [Hsp Hsy]]]]].
  { intros v _. exists [1; 1; 1]%R. split.
    - apply sample_eigenvalues_id.
    - cbn. lia. }
  exists s1, s2. split; [exact E1|]. split; [exact E2|].
  rewrite Hsp, Hsy. unfold eigenpair, is_spectrahedral.
  cbn [map filter app spec_nodes sym_nodes self init_machine init].
  rewrite sample_eigenvalues_id. cbn [snd first3_same_sign negb].
  decide_Rtests. cbn. split; reflexivity.
Defined.

(** *** The files the Singular handler touches *)

Lemma existsb_filter_other (f path : string) (l : list string) :
  f <> path ->
  existsb (String.eqb f)
          (filter (fun g => negb (String.eqb g path)) l)
  = existsb (String.eqb f) l.
Proof.
  intros Hne. induction l as [|g l IH]; [reflexivity|]. cbn.
  destruct (String.eqb_spec g path) as [->|Hg]; cbn.
  - rewrite IH. destruct (String.eqb_spec f path); [contradiction|reflexivity].
  - now rewrite IH.
Qed.

Lemma file_exists_other (f path : string) (s : Machine) :
  f <> path ->
  file_exists f (snd (os_remove path (snd (open_w path s))))
  = file_exists f s.
Proof.
  intros Hne. unfold file_exists, os_remove, open_w, modify_world. cbn.
  rewrite existsb_filter_other by exact Hne.
  destruct (in_dec string_dec path (files (world s))); [reflexivity|].
  cbn. destruct (String.eqb_spec f path); [contradiction | reflexivity].
Qed.

(** X15.  When the script is written and [singular] runs, the handler
    hands back whatever [parse_singular_output] makes of the output, value
    or exception; the file named after the number drawn is gone by then,
    also when a file of that name was there before the call, and no other
    file and no field of the object has changed. *)
Theorem handler_success_path (parse : string -> result (list Point))
    (env : SingularEnv) (output : string) (s : Machine) :
  script_written env = Ok tt ->
  check_output env = Ok output ->
  let s' := snd (get_nodes_from_singular parse env s) in
  fst (get_nodes_from_singular parse env s) = parse output
  /\ self s' = self s
  /\ file_exists (tmpfile_of env) s' = false
  /\ (forall f, f <> tmpfile_of env -> file_exists f s' = file_exists f s).
Proof.
  intros Hs Hc. cbv zeta.
  destruct (handler_removes_tmpfile parse env output s Hs Hc) as [H1 H2].
  split; [exact H1|]. split; [apply handler_keeps_self|].
  split; [exact H2|]. intros f Hf.
  unfold get_nodes_from_singular, lift. cbn [bind Monad_M].
  rewrite Hs, Hc.
  exact (file_exists_other f (tmpfile_of env) s Hf).
Qed.

(** A run in which the file ["tmp/7"] is there before the call. *)
Lemma handler_success_path_witness :
  let s := mkMachine init (mkWorld ["tmp/7"; "data/singular_script"]%string
                                   []) in
  let s' := snd (get_nodes_from_singular parse_one_node working_env s) in
  script_written working_env = Ok tt
  /\ check_output working_env = Ok "[1]:"%string
  /\ fst (get_nodes_from_singular parse_one_node working_env s)
     = parse_one_node "[1]:"
  /\ self s' = self s
  /\ file_exists (tmpfile_of working_env) s' = false
  /\ (forall f, f <> tmpfile_of working_env ->
                file_exists f s' = file_exists f s).
Proof.
  cbv zeta. split; [reflexivity|]. split; [reflexivity|].
  apply (handler_success_path parse_one_node working_env "[1]:"
           (mkMachine init
              (mkWorld ["tmp/7"; "data/singular_script"]%string [])));
    reflexivity.
Defined.

(** X16.  When [print_singular_script] raises, the exception leaves the
    handler with the file it has just opened still on disk and the object
    unchanged. *)
Theorem handler_script_failure (parse : string -> result (list Point))
    (env : SingularEnv) (e : exn) (s : Machine) :
  script_written env = Err e ->
  let s' := snd (get_nodes_from_singular parse env s) in
  fst (get_nodes_from_singular parse env s) = Err e
  /\ self s' = self s
  /\ file_exists (tmpfile_of env) s' = true.
Proof.
  intros Hs. cbv zeta.
  split; [|split; [apply handler_keeps_self|]].
  - unfold get_nodes_from_singular, lift. cbn [bind Monad_M].
    now rewrite Hs.
  - unfold get_nodes_from_singular, lift. cbn [bind Monad_M].
    rewrite Hs. cbn [snd].
    apply (file_exists_open_w (tmpfile_of env) s).
Qed.

Lemma handler_script_failure_witness :
  let env := mkSingularEnv 12 (Err IOError) (Ok "[1]:"%string) in
  let s' := snd (get_nodes_from_singular parse_one_node env init_machine) in
  script_written env = Err IOError
  /\ fst (get_nodes_from_singular parse_one_node env init_machine)
     = Err IOError
  /\ self s' = self init_machine
  /\ file_exists "tmp/12" s' = true.
Proof.
  cbv zeta. split; [reflexivity|].
  apply (handler_script_failure parse_one_node
           (mkSingularEnv 12 (Err IOError) (Ok "[1]:"%string)) IOError
           init_machine).
  reflexivity.
Defined.

(** *** [matrix] *)

Lemma nth_error_zip_with {X Y Z : Type} (f : X -> Y -> Z) (l : list X) :
  forall (l' : list Y) (i : nat) (a : X) (b : Y),
    nth_error l i = Some a -> nth_error l' i = Some b ->
    nth_error (zip_with f l l') i = Some (f a b).
Proof.
  induction l as [|x l IH]; intros [|y l'] [|i] a b Ha Hb; cbn in *;
    try discriminate.
  - congruence.
  - now apply IH.
Qed.

Lemma entry_inv (m : Matrix) (i j : nat) (v : R) :
  entry m i j = Ok v <->
  exists row, nth_error m i = Some row /\ nth_error row j = Some v.
Proof.
  unfold entry, index. cbn. split.
  - destruct (nth_error m i) as [row|] eqn:E1; [|discriminate].
    destruct (nth_error row j) as [w|] eqn:E2; [|discriminate].
    intros H. inversion H; subst. exists row. now split.
  - intros [row [-> ->]]. reflexivity.
Qed.

Lemma entry_map (f : R -> R) (m : Matrix) (i j : nat) (v : R) :
  entry m i j = Ok v -> entry (map (map f) m) i j = Ok (f v).
Proof.
  rewrite !entry_inv. intros [row [H1 H2]]. exists (map f row).
  rewrite !nth_error_map, H1, H2. now split.
Qed.

Lemma entry_zip (m m' : Matrix) (i j : nat) (v v' : R) :
  entry m i j = Ok v -> entry m' i j = Ok v' ->
  entry (zip_with (zip_with Rplus) m m') i j = Ok (v + v')%R.
Proof.
  rewrite !entry_inv. intros [row [H1 H2]] [row' [H1' H2']].
  exists (zip_with Rplus row row'). split; now apply nth_error_zip_with.
Qed.

Lemma stretch_same {X : Type} (n : nat) (l : list X) :
  List.length l = n -> stretch n l = l.
Proof.
  destruct l as [|x [|y l]]; cbn; intros H; try reflexivity.
  now subst n.
Qed.

Lemma zip_with_stretch (c : nat) (a : Matrix) :
  forall b : Matrix,
    Forall (fun row => List.length row = c) a ->
    Forall (fun row => List.length row = c) b ->
    zip_with (fun ra rb => zip_with Rplus (stretch c ra) (stretch c rb)) a b
    = zip_with (zip_with Rplus) a b.
Proof.
  induction a as [|ra a IH]; intros [|rb b] Ha Hb; try reflexivity.
  inversion Ha as [|? ? Hra Ha']; inversion Hb as [|? ? Hrb Hb']; subst.
  cbn. rewrite !stretch_same by (first [reflexivity | assumption]).
  f_equal. now apply IH.
Qed.

Lemma zip_with_length {X Y Z : Type} (f : X -> Y -> Z) (l : list X) :
  forall l' : list Y,
    List.length l' = List.length l ->
    List.length (zip_with f l l') = List.length l.
Proof.
  induction l as [|x l IH]; intros [|y l'] H; cbn in *; try lia.
  now rewrite IH by lia.
Qed.

Lemma has_shape_shape (r c : nat) (m : Matrix) :
  has_shape r c m -> m = [] \/ shape m = (r, c).
Proof.
  intros [Hr Hc]. destruct m as [|row m]; [now left|]. right.
  inversion Hc; subst. reflexivity.
Qed.

Lemma has_shape_map (f : R -> R) (r c : nat) (m : Matrix) :
  has_shape r c m -> has_shape r c (map (map f) m).
Proof.
  intros [Hr Hc]. split; [now rewrite length_map|].
  apply Forall_forall. intros row Hrow. apply in_map_iff in Hrow.
  destruct Hrow as [row0 [<- Hin]]. rewrite length_map.
  rewrite Forall_forall in Hc. now apply Hc.
Qed.

Lemma has_shape_zip (r c : nat) (a : Matrix) :
  forall b : Matrix,
    has_shape r c a -> has_shape r c b ->
    has_shape r c (zip_with (zip_with Rplus) a b).
Proof.
  intros b [Hra Hca] [Hrb Hcb]. split.
  - rewrite zip_with_length; congruence.
  - clear Hra Hrb. revert b Hcb.
    induction a as [|ra a IH]; intros [|rb b] Hcb; cbn; try constructor.
    + inversion Hca; inversion Hcb; subst.
      rewrite zip_with_length; congruence.
    + inversion Hca; inversion Hcb; subst. now apply IH.
Qed.

Lemma madd_same_shape (r c : nat) (a b : Matrix) :
  has_shape r c a -> has_shape r c b ->
  madd a b = Ok (zip_with (zip_with Rplus) a b).
Proof.
  intros Ha Hb.
  destruct (has_shape_shape r c a Ha) as [->|Sa].
  { destruct Ha as [Hr _]. destruct Hb as [Hrb _]. cbn in Hr. subst r.
    destruct b; [reflexivity | discriminate]. }
  destruct (has_shape_shape r c b Hb) as [->|Sb].
  { destruct Ha as [Hr _]. destruct Hb as [Hrb _]. cbn in Hrb. subst r.
    destruct a; [reflexivity | discriminate]. }
  unfold madd. rewrite Sa, Sb. unfold broadcast_axis. rewrite !Nat.eqb_refl.
  destruct Ha as [Hra Hca]. destruct Hb as [Hrb Hcb].
  rewrite !stretch_same by assumption.
  now rewrite zip_with_stretch.
Qed.

(** X17.  On four matrices of one shape, [r] rows of [c] columns each,
    [matrix] returns normally a matrix of that shape, and evaluates the
    pencil entry by entry: the entry [(i, j)] is
    [0 + x * A[i,j] + y * B[i,j] + z * C[i,j] + 1 * D[i,j]]. *)
Theorem matrix_entry (A B C D : Matrix) (r c : nat) (x y z : R) :
  has_shape r c A -> has_shape r c B ->
  has_shape r c C -> has_shape r c D ->
  exists m,
    matrix A B C D (x, y, z) = Ok m
    /\ has_shape r c m
    /\ (forall i j a b c' d,
           entry A i j = Ok a -> entry B i j = Ok b ->
           entry C i j = Ok c' -> entry D i j = Ok d ->
           entry m i j = Ok (0 + x * a + y * b + z * c' + 1 * d)%R).
Proof.
  intros HA HB HC HD.
  pose proof (has_shape_map (Rplus 0) r c _ (has_shape_map (Rmult x) r c A HA))
    as H0.
  pose proof (has_shape_map (Rmult y) r c B HB) as H1.
  pose proof (has_shape_map (Rmult z) r c C HC) as H2.
  pose proof (has_shape_map (Rmult 1) r c D HD) as H3.
  pose proof (has_shape_zip r c _ _ H0 H1) as H01.
  pose proof (has_shape_zip r c _ _ H01 H2) as H012.
  eexists. split; [|split].
  - unfold matrix, matrices, py_sum, mscale. cbn [zip_with madd_all].
    rewrite (madd_same_shape r c _ _ H0 H1).
    rewrite (madd_same_shape r c _ _ H01 H2).
    rewrite (madd_same_shape r c _ _ H012 H3). reflexivity.
  - now apply has_shape_zip.
  - intros i j a b c' d Ha Hb Hc Hd.
    repeat apply entry_zip; try (now apply (entry_map (Rmult _))).
    apply (entry_map (Rplus 0)). now apply (entry_map (Rmult x)).
Qed.

Lemma fail_pencil_shape :
  has_shape 5 5 fail_A /\ has_shape 5 5 fail_B
  /\ has_shape 5 5 fail_C /\ has_shape 5 5 fail_D.
Proof. repeat split; repeat constructor. Qed.

Lemma matrix_entry_witness :
  has_shape 5 5 fail_A
  /\ exists m,
       matrix fail_A fail_B fail_C fail_D (1, 0, 0)%R = Ok m
       /\ has_shape 5 5 m
       /\ (forall i j a b c' d,
              entry fail_A i j = Ok a -> entry fail_B i j = Ok b ->
              entry fail_C i j = Ok c' -> entry fail_D i j = Ok d ->
              entry m i j = Ok (0 + 1 * a + 0 * b + 0 * c' + 1 * d)%R).
Proof.
  destruct fail_pencil_shape as [HA [HB [HC HD]]].
  split; [exact HA|].
  exact (matrix_entry fail_A fail_B fail_C fail_D 5 5 1 0 0 HA HB HC HD).
Defined.

Lemma shape_map (f : R -> R) (m : Matrix) : shape (map (map f) m) = shape m.
Proof.
  destruct m as [|row m]; [reflexivity|]. unfold shape. cbn.
  now rewrite !length_map.
Qed.

(** X24.  When [A], [B] and [C] have one shape, with at least one row, and
    the shape of [D] cannot be broadcast against it (on one axis the two
    lengths differ and neither is 1), the last addition of [matrix] raises
    [ValueError]: no matrix is returned. *)
Theorem matrix_shape_mismatch (A B C D : Matrix) (r c : nat) (x y z : R) :
  (0 < r)%nat ->
  has_shape r c A -> has_shape r c B -> has_shape r c C ->
  broadcast_axis r (fst (shape D)) = None
  \/ broadcast_axis c (snd (shape D)) = None ->
  matrix A B C D (x, y, z) = Err ValueError.
Proof.
  intros Hr HA HB HC HDs.
  pose proof (has_shape_map (Rplus 0) r c _ (has_shape_map (Rmult x) r c A HA))
    as H0.
  pose proof (has_shape_map (Rmult y) r c B HB) as H1.
  pose proof (has_shape_map (Rmult z) r c C HC) as H2.
  pose proof (has_shape_zip r c _ _ H0 H1) as H01.
  pose proof (has_shape_zip r c _ _ H01 H2) as H012.
  unfold matrix, matrices, py_sum, mscale. cbn [zip_with madd_all].
  rewrite (madd_same_shape r c _ _ H0 H1).
  rewrite (madd_same_shape r c _ _ H01 H2).
  destruct (has_shape_shape r c _ H012) as [E|E].
  { destruct H012 as [Hl _]. rewrite E in Hl. cbn in Hl. lia. }
  unfold madd. rewrite E, (shape_map (Rmult 1) D).
  destruct (shape D) as [r' c']. cbn [fst snd] in HDs.
  destruct HDs as [-> | ->]; [reflexivity|].
  destruct (broadcast_axis r r'); reflexivity.
Qed.

(** Three 2 x 2 matrices and a 3 x 3 one. *)
Lemma matrix_shape_mismatch_witness :
  (0 < 2)%nat
  /\ has_shape 2 2 zero2
  /\ broadcast_axis 2 (fst (shape sample_D)) = None
  /\ matrix zero2 zero2 zero2 sample_D (0, 0, 0)%R = Err ValueError.
Proof.
  assert (H2 : has_shape 2 2 zero2) by (split; repeat constructor).
  split; [lia|]. split; [exact H2|]. split; [reflexivity|].
  apply (matrix_shape_mismatch zero2 zero2 zero2 sample_D 2 2 0 0 0);
    [lia | exact H2 | exact H2 | exact H2 | left; reflexivity].
Defined.

(** *** [parse_singular_output] *)

Lemma index_in_range {X : Type} (l : list X) (k : nat) (d : X) :
  (k < List.length l)%nat -> index l k = Ok (nth k l d).
Proof.
  intros H. unfold index.
  destruct (nth_error l k) as [a|] eqn:E.
  - now rewrite (nth_error_nth l k d E).
  - apply nth_error_None in E. lia.
Qed.

Lemma index_out_of_range {X : Type} (l : list X) (k : nat) :
  (List.length l <= k)%nat -> index l k = Err IndexError.
Proof.
  intros H. unfold index.
  now rewrite (proj2 (nth_error_None l k) H).
Qed.

Lemma drop_length (k : nat) :
  forall s : string, String.length (drop k s) = (String.length s - k)%nat.
Proof.
  induction k as [|k IH]; intros [|c s]; cbn; try reflexivity.
  apply IH.
Qed.

Lemma splitlines_from_length (n : nat) :
  forall s line : string,
    (String.length s <= n)%nat ->
    (List.length (splitlines_from s line) <= String.length s + 1)%nat.
Proof.
  induction n as [|n IH]; intros [|c s] line H; cbn in H; try lia.
  - cbn. destruct line; cbn; lia.
  - cbn. destruct line; cbn; lia.
  - cbn [splitlines_from String.length].
    destruct (Ascii.eqb c LF).
    + cbn [List.length]. specialize (IH s EmptyString). lia.
    + destruct (Ascii.eqb c CR).
      * destruct s as [|c' s'].
        -- cbn. lia.
        -- destruct (Ascii.eqb c' LF); cbn [List.length String.length] in *.
           ++ specialize (IH s' EmptyString). lia.
           ++ specialize (IH (String c' s') EmptyString).
              cbn [String.length] in IH. lia.
      * specialize (IH s (line ++ String c EmptyString)%string). lia.
Qed.

Section ParseProperties.

Variable py_float : string -> result R.

Lemma paren_at_in_range (split : list string) (k : nat) :
  (k < List.length split)%nat ->
  paren_at split k = Ok (has_char "(" (nth k split EmptyString)).
Proof.
  intros H. unfold paren_at.
  now rewrite (index_in_range split k EmptyString H).
Qed.

Lemma float_at_in_range (split : list string) (k : nat) :
  (k < List.length split)%nat ->
  float_at py_float split k = py_float (nth k split EmptyString).
Proof.
  intros H. unfold float_at.
  now rewrite (index_in_range split k EmptyString H).
Qed.

Lemma parse_blocks_length (split : list string) (starts : list nat) :
  forall vectors result_vectors : list Point,
    parse_blocks py_float split starts vectors = Ok result_vectors ->
    (List.length result_vectors
     <= List.length vectors + List.length starts)%nat.
Proof.
  induction starts as [|i starts IH]; intros vectors rv E;
    cbn [parse_blocks] in E.
  - inversion E; subst. cbn. lia.
  - destruct (py_or _ _) as [[|]|e]; [| |discriminate].
    + apply IH in E. cbn [List.length]. lia.
    + destruct (float_at py_float split (i + 2)) as [x|]; [|discriminate].
      destruct (float_at py_float split (i + 4)) as [y|]; [|discriminate].
      destruct (float_at py_float split (i + 6)) as [z|]; [|discriminate].
      cbn [bind Monad_result] in E. apply IH in E.
      rewrite length_app in E. cbn [List.length] in *. lia.
Qed.

(** X18.  [parse_singular_output] reads twenty blocks and no more: a list it
    returns has at most twenty points, however long the output is. *)
Theorem parse_at_most_twenty (output : string) (vectors : list Point) :
  parse_singular_output py_float output = Ok vectors ->
  (List.length vectors <= 20)%nat.
Proof.
  unfold parse_singular_output. intros E.
  apply parse_blocks_length in E. cbn in E. exact E.
Qed.

Lemma parse_blocks_short (split : list string) (i : nat)
    (starts : list nat) :
  In i starts ->
  (List.length split <= i + 2)%nat ->
  forall vectors, exists e,
    parse_blocks py_float split starts vectors = Err e.
Proof.
  intros Hin Hlen. induction starts as [|j starts IH]; [contradiction|].
  intros vectors. cbn [parse_blocks].
  destruct Hin as [->|Hin].
  - unfold paren_at at 1.
    rewrite (index_out_of_range split (i + 2) Hlen). cbn. eauto.
  - destruct (py_or _ _) as [[|]|e]; [now apply IH| |eauto].
    destruct (float_at py_float split (j + 2)) as [x|e]; [|cbn; eauto].
    destruct (float_at py_float split (j + 4)) as [y|e]; [|cbn; eauto].
    destruct (float_at py_float split (j + 6)) as [z|e]; [|cbn; eauto].
    cbn [bind Monad_result]. now apply IH.
Qed.

(** X19.  [parse_singular_output] expects all twenty blocks to be there:
    when the output, from its first ["[1]"] on, has fewer than 136 lines,
    the call raises an exception instead of returning the points of the
    blocks that are present. *)
Theorem parse_needs_twenty_blocks (output : string) :
  (List.length (splitlines (slice_from (str_find "[1]" output) output))
   < 136)%nat ->
  exists e, parse_singular_output py_float output = Err e.
Proof.
  intros H. unfold parse_singular_output.
  apply (parse_blocks_short _ 133).
  - unfold block_starts. apply in_map_iff. exists 19%nat.
    split; [reflexivity|]. apply in_seq. lia.
  - lia.
Qed.

Lemma parse_no_marker (output : string) :
  str_find "[1]" output = (-1)%Z ->
  exists e, parse_singular_output py_float output = Err e.
Proof.
  intros H. unfold parse_singular_output. rewrite H.
  apply (parse_blocks_short _ 133).
  - unfold block_starts. apply in_map_iff. exists 19%nat.
    split; [reflexivity|]. apply in_seq. lia.
  - unfold splitlines.
    pose proof (splitlines_from_length
                  (String.length (slice_from (-1) output))
                  (slice_from (-1) output) EmptyString (Nat.le_refl _)) as Hl.
    unfold slice_from in *. change (-1 <? 0)%Z with true in *.
    cbv iota in *. rewrite drop_length in Hl. lia.
Qed.

(** X20.  An output in which ["[1]"] does not occur is not read as "no
    node": [find] returns [-1], the slice keeps the last character only,
    and the call raises an exception. *)
Theorem parse_without_marker (output : string) :
  str_find "[1]" output = (-1)%Z ->
  exists e, parse_singular_output py_float output = Err e.
Proof.
  intros H. unfold parse_singular_output. rewrite H.
  apply (parse_blocks_short _ 133).
  - unfold block_starts. apply in_map_iff. exists 19%nat.
    split; [reflexivity|]. apply in_seq. lia.
  - unfold splitlines.
    pose proof (splitlines_from_length
                  (String.length (slice_from (-1) output))
                  (slice_from (-1) output) EmptyString (Nat.le_refl _)) as Hl.
    unfold slice_from in *. change (-1 <? 0)%Z with true in *.
    cbv iota in *. rewrite drop_length in Hl. lia.
Qed.

(** X22.  The default handler on such an output: [singular] has run, the
    temporary file is removed, and the handler raises the exception of the
    parse instead of returning an empty list of candidates. *)
Theorem handler_on_output_without_marker (env : SingularEnv)
    (output : string) (s : Machine) :
  script_written env = Ok tt ->
  check_output env = Ok output ->
  str_find "[1]" output = (-1)%Z ->
  let r := get_nodes_from_singular (parse_singular_output py_float) env s in
  (exists e, fst r = Err e)
  /\ file_exists (tmpfile_of env) (snd r) = false.
Proof.
  intros Hs Hc Hm. cbv zeta.
  destruct (handler_removes_tmpfile (parse_singular_output py_float) env
              output s Hs Hc) as [H1 H2].
  split; [|exact H2].
  destruct (parse_no_marker output Hm) as [e He].
  exists e. now rewrite H1.
Qed.

Lemma parse_blocks_reads (split : list string) (starts : list nat) :
  (forall i, In i starts -> (i + 6 < List.length split)%nat) ->
  forall vectors points : list Point,
    Forall2 (block_reads py_float split)
            (filter (fun i => negb (block_skipped split i)) starts) points ->
    parse_blocks py_float split starts vectors = Ok (vectors ++ points).
Proof.
  induction starts as [|i starts IH]; intros Hr vectors points HF.
  - cbn in HF. inversion HF; subst. cbn. now rewrite app_nil_r.
  - assert (Hi : (i + 6 < List.length split)%nat) by (apply Hr; now left).
    assert (Hr' : forall j, In j starts -> (j + 6 < List.length split)%nat)
      by (intros j Hj; apply Hr; now right).
    cbn [parse_blocks filter] in *.
    rewrite !paren_at_in_range by lia.
    cbn [py_or]. unfold block_skipped in HF.
    destruct (has_char "(" (nth (i + 2) split EmptyString)) eqn:E2;
      cbn [orb negb] in HF.
    { now apply IH. }
    destruct (has_char "(" (nth (i + 4) split EmptyString)) eqn:E4;
      cbn [orb negb] in HF.
    { now apply IH. }
    destruct (has_char "(" (nth (i + 6) split EmptyString)) eqn:E6;
      cbn [orb negb] in HF.
    { now apply IH. }
    inversion HF as [|? p ? points' Hp HF']; subst.
    destruct p as [[x y] z]. destruct Hp as [Hx [Hy Hz]].
    rewrite !float_at_in_range by lia. rewrite Hx, Hy, Hz.
    cbn [bind Monad_result].
    rewrite (IH Hr' (vectors ++ [(x, y, z)]) points' HF').
    now rewrite <- app_assoc.
Qed.

(** X21.  When the output, from its first ["[1]"] on, has at least 140
    lines, the blocks with a ['('] on one of their coordinate lines (lines
    2, 4 and 6 of the block) are left out, and if the coordinate lines of
    the other blocks read as numbers the call returns the points of those
    blocks, in the order of the blocks. *)
Theorem parse_reads_kept_blocks (output : string) (points : list Point) :
  let split := splitlines (slice_from (str_find "[1]" output) output) in
  (140 <= List.length split)%nat ->
  Forall2 (block_reads py_float split)
          (filter (fun i => negb (block_skipped split i)) block_starts)
          points ->
  parse_singular_output py_float output = Ok points.
Proof.
  cbv zeta. intros Hl HF. unfold parse_singular_output.
  apply (parse_blocks_reads _ block_starts) with (vectors := []);
    [|exact HF].
  intros i Hi. unfold block_starts in Hi. apply in_map_iff in Hi.
  destruct Hi as [k [<- Hk]]. apply in_seq in Hk. lia.
Qed.

End ParseProperties.

Lemma parse_needs_twenty_blocks_witness :
  let output := ("// solutions" ++ String LF
                   (String.concat (String LF EmptyString)
                                  (real_block ++ real_block)))%string in
  (List.length (splitlines (slice_from (str_find "[1]" output) output))
   < 136)%nat
  /\ exists e, parse_singular_output sample_float output = Err e.
Proof.
  cbv zeta.
  assert (H : (List.length
                 (splitlines
                    (slice_from
                       (str_find "[1]"
                          ("// solutions" ++ String LF
                             (String.concat (String LF EmptyString)
                                (real_block ++ real_block)))%string)
                       ("// solutions" ++ String LF
                          (String.concat (String LF EmptyString)
                             (real_block ++ real_block)))%string))
               < 136)%nat).
  { apply Nat.ltb_lt. vm_compute. reflexivity. }
  split; [exact H|].
  apply (parse_needs_twenty_blocks sample_float _ H).
Defined.

Lemma parse_without_marker_witness :
  str_find "[1]" "singular: command not found" = (-1)%Z
  /\ exists e,
       parse_singular_output sample_float "singular: command not found"
       = Err e.
Proof.
  split; [reflexivity|].
  apply (parse_without_marker sample_float "singular: command not found").
  reflexivity.
Defined.

Lemma parse_reads_kept_blocks_witness :
  let split := splitlines (slice_from (str_find "[1]" sample_report)
                                      sample_report) in
  (140 <= List.length split)%nat
  /\ parse_singular_output sample_float sample_report
     = Ok [(1, 0, 0)%R; (1, 0, 0)%R].
Proof.
  cbv zeta.
  assert (Hl : (140 <= List.length
                         (splitlines (slice_from (str_find "[1]" sample_report)
                                                 sample_report)))%nat).
  { apply Nat.leb_le. vm_compute. reflexivity. }
  split; [exact Hl|].
  apply (parse_reads_kept_blocks sample_float sample_report
           [(1, 0, 0)%R; (1, 0, 0)%R] Hl).
  assert (Hk : filter (fun i => negb (block_skipped
                          (splitlines (slice_from (str_find "[1]" sample_report)
                                                  sample_report)) i))
                      block_starts = [0; 7]%nat) by (vm_compute; reflexivity).
  rewrite Hk.
  repeat constructor.
Defined.

Lemma handler_on_output_without_marker_witness :
  let env := mkSingularEnv 7 (Ok tt) (Ok "? error occurred"%string) in
  let r := get_nodes_from_singular (parse_singular_output sample_float) env
                                   init_machine in
  str_find "[1]" "? error occurred" = (-1)%Z
  /\ (exists e, fst r = Err e)
  /\ file_exists "tmp/7" (snd r) = false.
Proof.
  cbv zeta. split; [reflexivity|].
  apply (handler_on_output_without_marker sample_float
           (mkSingularEnv 7 (Ok tt) (Ok "? error occurred"%string))
           "? error occurred" init_machine);
    reflexivity.
Defined.

(** *** [process] when the discovery fails *)

Section DiscoveryFailure.

Variables A B C D : Matrix.
Variable svd : Matrix -> Matrix * list R * Matrix.
Variable parse_singular_output : string -> result (list Point).

(** X23.  When the discovery step raises, [process] raises the same
    exception before the matching pass and before [mins] is emptied: the
    raw minima, the occurrence counts, the ranking and [trials] are as they
    were, so the sampling done so far is not lost. *)
Theorem process_discovery_failure (tolerance : R) (env : SingularEnv)
    (s s1 : Machine) (e : exn) :
  discover A B C D svd parse_singular_output env s = (Err e, s1) ->
  process A B C D svd parse_singular_output tolerance env s = (Err e, s1)
  /\ mins (self s1) = mins (self s)
  /\ pmins (self s1) = pmins (self s)
  /\ nodes (self s1) = nodes (self s)
  /\ trials (self s1) = trials (self s).
Proof.
  intros E. split; [now rewrite process_unfold, E|].
  unfold discover, gets, modify in E. cbn [bind Monad_M] in E.
  destruct (is_empty (spec_nodes (self s)) && is_empty (sym_nodes (self s)));
    [|discriminate].
  pose proof (get_nodes_default_keeps A B C D svd parse_singular_output
                env s) as Hk.
  destruct (get_nodes A B C D svd parse_singular_output None env s)
    as [[[]|e'] s0]; [discriminate|].
  inversion E; subst. unfold tally_fields in Hk. cbn [snd] in Hk.
  inversion Hk as [[Hm Hp Hn Ht]]. repeat split; reflexivity.
Qed.

End DiscoveryFailure.

(** A fresh object with two raw minima, and a run of [singular] that
    fails. *)
Lemma process_discovery_failure_witness :
  let s := snd (solve 1 (fun _ => both_at_p) init_machine) in
  let s1 := mkMachine (self s) (mkWorld ["tmp/7"%string] [NSD; PSD]) in
  discover zero3 zero3 zero3 sample_D sample_svd parse_one_node failing_env s
  = (Err CalledProcessError, s1)
  /\ process zero3 zero3 zero3 sample_D sample_svd parse_one_node
             default_tolerance failing_env s = (Err CalledProcessError, s1)
  /\ mins (self s1) = [node_p; node_p].
Proof.
  cbv zeta.
  assert (E : discover zero3 zero3 zero3 sample_D sample_svd parse_one_node
                failing_env (snd (solve 1 (fun _ => both_at_p) init_machine))
              = (Err CalledProcessError,
                 mkMachine
                   (self (snd (solve 1 (fun _ => both_at_p) init_machine)))
                   (mkWorld ["tmp/7"%string] [NSD; PSD]))) by reflexivity.
  split; [exact E|].
  destruct (process_discovery_failure zero3 zero3 zero3 sample_D sample_svd
              parse_one_node default_tolerance failing_env _ _ _ E)
    as [Hp [Hm _]].
  split; [exact Hp | reflexivity].
Defined.

(** The sample report has twenty blocks; two of them are read. *)
Lemma parse_at_most_twenty_witness :
  parse_singular_output sample_float sample_report
  = Ok [(1, 0, 0)%R; (1, 0, 0)%R]
  /\ (List.length [(1, 0, 0)%R; (1, 0, 0)%R] <= 20)%nat.
Proof.
  assert (E : parse_singular_output sample_float sample_report
              = Ok [(1, 0, 0)%R; (1, 0, 0)%R]) by (vm_compute; reflexivity).
  split; [exact E|].
  apply (parse_at_most_twenty sample_float sample_report _ E).
Defined.
